(** * gifception: the frame-synthesis engine of [gifception.py]

    A shallow embedding of [AnchoredImage], [FrameWorker] and [Gifception]
    and the properties of the engine stated over it.  The animators of
    [gcanimators.py], which turn a directory of frames into an animation,
    follow the engine.

    Conventions of the embedding.
    - Python numbers are exact rationals ([Q]); [int] values are the
      integers among them.  Binary floating point rounding is outside the
      model: [+], [-], [*], [/] and [**] with an integer exponent are the
      exact operations, and [**] with a fractional exponent is a parameter
      ([FloatPow]).
    - Pillow is an external library.  Its images live in a store of rasters
      addressed by handles, because [Image.paste] writes in place while
      [resize], [crop] and [copy] build new images.  The sizes and the
      errors of the Pillow calls follow Pillow; what the pixels become is a
      parameter ([Pillow]).
    - A method that assigns to [self] returns the updated object next to
      its Python result.  An attribute that may be unassigned has an
      [option] type, [None] meaning that the attribute does not exist. *)

From Stdlib Require Import ZArith QArith Qround Qpower Lqa Ascii String.
From stdpp Require Import base tactics option list gmap strings.

Local Open Scope Z_scope.

(** ** Python numbers *)

Module Num.

Definition Qgtb (a b : Q) : bool := negb (Qle_bool a b).

Definition is_zero (a : Q) : bool := Qeq_bool a 0.

(** [int(x)]: truncation towards zero. *)
Definition py_int (x : Q) : Z := Z.quot (Qnum x) (Z.pos (Qden x)).

(** [round(x)]: to the nearest integer, ties to the even one. *)
Definition py_round (x : Q) : Z :=
  let f := Qfloor x in
  let d := (x - inject_Z f)%Q in
  match (d ?= 1 # 2)%Q with
  | Lt => f
  | Gt => f + 1
  | Eq => if Z.even f then f else f + 1
  end.

(** [math.ceil(x)]. *)
Definition py_ceil (x : Q) : Z := Qceiling x.

(** [x ** n] for an integer [n]. *)
Definition py_pow_int (x : Q) (n : Z) : Q := Qpower x n.

End Num.

(** [x ** y] for a fractional [y]: the one operation of the program that has
    no exact rational result.  Only its sign is used. *)
Class FloatPow := {
  fpow : Q -> Q -> Q;
  fpow_pos : forall x y : Q, (0 < x)%Q -> (0 < fpow x y)%Q
}.

(** ** Exceptions *)

Inductive value_error : Type :=
  | ExceedsMaxPixels (npx limit : Q)
      (* "Scaling attempt would exceed the maximum amount of pixels
         ({npx} > {max_pixels})", gifception.py:46 *)
  | AnchorOutOfBounds (p : Q * Q) (w h : Z)
      (* "Anchor {p} is out of bounds ({w}x{h})", gifception.py:84 *)
  | PillowBadSize
      (* Pillow, resize: "height and width must be > 0" *)
  | PillowBadBox.
      (* Pillow, crop: "Coordinate 'right' is less than 'left'" (or lower, upper) *)

Inductive exn : Type :=
  | ValueError (v : value_error)
  | TypeError (msg : string)
  | AttributeError (cls attr : string)
  | NameError (name : string)
  | ZeroDivisionError
  | GifceptionException (msg : string)
  | InvalidHandle.
      (* not a Python exception: a handle outside the store, which no
         Python program can hold *)

Definition is_ValueError (e : exn) : bool :=
  match e with ValueError _ => true | _ => false end.

(** ** Pillow *)

(** The resampling filters of [PIL.Image]. *)
Inductive filter : Type := NEAREST | BILINEAR | BICUBIC | LANCZOS.

Definition box4 (A : Type) : Type := (A * A * A * A)%type.

(** What Pillow computes for the pixels.  Nothing is assumed about it. *)
Class Pillow := {
  pixels : Type;
  (** [resample f size data size']: the data of [resize(size', f)]. *)
  resample : filter -> Z * Z -> pixels -> Z * Z -> pixels;
  (** [crop_pixels size data box]: the data of [crop(box)]. *)
  crop_pixels : Z * Z -> pixels -> box4 Z -> pixels;
  (** [paste_pixels size data size' data' at]: the data of the destination
      after [paste(src, at)], clipped to the destination. *)
  paste_pixels : Z * Z -> pixels -> Z * Z -> pixels -> Z * Z -> pixels
}.

Abbreviation loc := nat (only parsing).

Section Store.
Context `{Pillow}.

Record raster : Type := Raster { width : Z; height : Z; data : pixels }.

Definition raster_size (r : raster) : Z * Z := (width r, height r).

(** The store is the list of the rasters, [heap]; a handle, [loc], is an
    index in it, and a new image goes at the end. *)

Inductive outcome (A : Type) : Type :=
  | Returned (a : A) (h : list raster)
  | Raised (e : exn) (h : list raster).
Global Arguments Returned {A} a h.
Global Arguments Raised {A} e h.

(** A Python computation: it reads and writes the store, and returns or
    raises.  What it wrote before it raised stays written. *)
Definition py (A : Type) : Type := list raster -> outcome A.

Definition ret {A} (a : A) : py A := fun h => Returned a h.
Definition raise {A} (e : exn) : py A := fun h => Raised e h.
Definition bind {A B} (m : py A) (k : A -> py B) : py B :=
  fun h => match m h with
           | Returned a h' => k a h'
           | Raised e h' => Raised e h'
           end.

(** [try: m  except ValueError: handler]. *)
Definition try_except_ValueError {A} (m : py A) (handler : py A) : py A :=
  fun h => match m h with
           | Returned a h' => Returned a h'
           | Raised e h' => if is_ValueError e then handler h' else Raised e h'
           end.

Definition final_heap {A} (o : outcome A) : list raster :=
  match o with Returned _ h => h | Raised _ h => h end.

Definition read (l : nat) : py raster :=
  fun h => match h !! l with
           | Some r => Returned r h
           | None => Raised InvalidHandle h
           end.

Definition alloc (r : raster) : py nat :=
  fun h => Returned (length h) (h ++ [r]).

Definition write (l : nat) (r : raster) : py unit :=
  fun h => match h !! l with
           | Some _ => Returned tt (<[l := r]> h)
           | None => Raised InvalidHandle h
           end.

End Store.

Abbreviation heap := (list raster) (only parsing).

Global Instance py_ret `{Pillow} : MRet py := @ret _.
Global Instance py_bind `{Pillow} : MBind py := fun A B k m => bind m k.

(** [a / b]: raises [ZeroDivisionError] for a zero divisor. *)
Definition py_div `{Pillow} (a b : Q) : py Q :=
  if Num.is_zero b then raise ZeroDivisionError else ret (a / b)%Q.

Module Image.
Section Image.
Context `{Pillow}.

(** [Image.size]. *)
Definition size (l : loc) : py (Z * Z) :=
  r ← read l; ret (raster_size r).

(** [Image.copy()]: a new image with the same size and data. *)
Definition copy (l : loc) : py loc :=
  r ← read l; alloc r.

(** [Image.resize(size, resample)]: a copy when the size is the image's
    own, [ValueError] when a side of the new size is below 1, and else a
    new image of that size. *)
Definition resize (l : loc) (sz : Z * Z) (f : filter) : py loc :=
  r ← read l;
  if decide (raster_size r = sz) then alloc r
  else if decide (fst sz < 1 \/ snd sz < 1) then raise (ValueError PillowBadSize)
  else alloc (Raster (fst sz) (snd sz) (resample f (raster_size r) (data r) sz)).

(** [Image.crop(box)]: the box is rounded to integers; [ValueError] when
    it ends before it starts; else a new image of the size of the box
    (the part outside the image is blank). *)
Definition crop (l : loc) (box : box4 Q) : py loc :=
  r ← read l;
  let '(x0, y0, x1, y1) := box in
  let b := (Num.py_round x0, Num.py_round y0, Num.py_round x1, Num.py_round y1) in
  let '(l0, u0, r0, d0) := b in
  if decide (r0 < l0 \/ d0 < u0) then raise (ValueError PillowBadBox)
  else alloc (Raster (r0 - l0) (d0 - u0) (crop_pixels (raster_size r) (data r) b)).

(** [Image.paste(im, box)] with a 2-tuple box: writes [im] into the image
    in place at that offset, clipped; the size stays. *)
Definition paste (l : loc) (src : loc) (at_ : Z * Z) : py unit :=
  r ← read l;
  s ← read src;
  write l (Raster (width r) (height r)
             (paste_pixels (raster_size r) (data r) (raster_size s) (data s) at_)).

End Image.
End Image.

(** ** [class AnchoredImage] *)

Module AnchoredImage.
Section AnchoredImage.
Context `{Pillow}.

(** The [config] dictionary, keys ["max_pixels"] and ["resampler"]. *)
Record config_t : Type := Config { max_pixels : Q; resampler : filter }.

Definition _default_config : config_t :=
  {| max_pixels := 800000000 # 1; resampler := BICUBIC |}.

(** [rel_anchor] is [None] while the attribute is unassigned. *)
Record t : Type := Obj {
  img : loc;
  config : config_t;
  rel_anchor : option (Q * Q)
}.

Definition set_img (self : t) (i : loc) : t :=
  {| img := i; config := config self; rel_anchor := rel_anchor self |}.

Definition set_rel_anchor (self : t) (a : Q * Q) : t :=
  {| img := img self; config := config self; rel_anchor := Some a |}.

(** Reading [self.rel_anchor]. *)
Definition get_rel_anchor (self : t) : py (Q * Q) :=
  match rel_anchor self with
  | Some a => ret a
  | None => raise (AttributeError "AnchoredImage" "rel_anchor")
  end.

Definition size (self : t) : py (Z * Z) := Image.size (img self).

(** [x or y] on numbers, [x] possibly [None]. *)
Definition or_else (x : option Q) (y : Q) : Q :=
  match x with
  | Some v => if Num.is_zero v then y else v
  | None => y
  end.

Definition scale (self : t) (factor : Q) (max_pixels_arg : option Q) : py t :=
  let max_pixels_ := or_else max_pixels_arg (max_pixels (config self)) in
  '(w, h) ← size self;
  let npx := (inject_Z (w * h) * Num.py_pow_int factor 2)%Q in
  if Num.Qgtb npx (max_pixels (config self)) && Num.Qgtb (max_pixels (config self)) 0
  then raise (ValueError (ExceedsMaxPixels npx max_pixels_))
  else
    let new_size := (Num.py_int (inject_Z w * factor), Num.py_int (inject_Z h * factor)) in
    i ← Image.resize (img self) new_size (resampler (config self));
    ret (set_img self i).

(** The result is the pair [corners, box] of the source. *)
Definition _zoom_in_box (self : t) (factor : Q) (rounding : bool)
  : py (((Q * Q) * (Q * Q)) * box4 Q) :=
  '(w, h) ← size self;
  ws ← py_div (inject_Z w) factor;
  hs ← py_div (inject_Z h) factor;
  '(rel_x, rel_y) ← get_rel_anchor self;
  inv ← py_div 1 factor;
  let ox := (rel_x * inject_Z w * (1 - inv))%Q in
  let oy := (rel_y * inject_Z h * (1 - inv))%Q in
  let rnd := fun x : Q => if rounding then inject_Z (Num.py_round x) else x in
  let '(ox, oy, ws, hs) := (rnd ox, rnd oy, rnd ws, rnd hs) in
  ret (((ox, oy), (ox + ws, oy + hs)), (ox, oy, ox + ws, oy + hs))%Q.

Definition zoom_in (self : t) (factor : Q) : py t :=
  '(_, box) ← _zoom_in_box self factor true;
  '(w, h) ← size self;
  c ← Image.crop (img self) box;
  i ← Image.resize c (w, h) (resampler (config self));
  ret (set_img self i).

Definition anchor_absolute (self : t) : py (Q * Q) :=
  '(rx, ry) ← get_rel_anchor self;
  '(w, h) ← size self;
  ret (inject_Z w * rx, inject_Z h * ry)%Q.

(** The Python result is [None], or the [ValueError] object that line 84
    returns. *)
Definition set_anchor_absolute (self : t) (p : Q * Q) : py (option exn * t) :=
  let '(x, y) := p in
  '(w, h) ← size self;
  if Num.Qgtb x (inject_Z w) || Num.Qgtb y (inject_Z h)
  then ret (Some (ValueError (AnchorOutOfBounds p w h)), self)
  else
    rx ← py_div x (inject_Z w);
    ry ← py_div y (inject_Z h);
    ret (None, set_rel_anchor self (rx, ry)).

Definition get_anchor_absolute (self : t) : py (Q * Q) :=
  '(rx, ry) ← get_rel_anchor self;
  '(w, h) ← size self;
  ret (rx * inject_Z w, ry * inject_Z h)%Q.

(** [__init__(img, anchor = (0.5, 0.5), relative = True, config = None)]. *)
Definition __init__ (i : loc) (anchor : Q * Q) (relative : bool)
    (cfg : option config_t) : py t :=
  let self := {| img := i; config := default _default_config cfg;
                 rel_anchor := None |} in
  if relative then ret (set_rel_anchor self anchor)
  else '(_, self') ← set_anchor_absolute self anchor; ret self'.

(** [AnchoredImage(img)]. *)
Definition new (i : loc) : py t := __init__ i (1 # 2, 1 # 2)%Q true None.

(** A dynamically typed argument. *)
Inductive object : Type :=
  | PILImage (i : loc)
  | Anchored (a : t)
  | Other.

(** [paste(img, box, mask)]; the mask is [None] at every call. *)
Definition paste (self : t) (im : object) (box : option (Z * Z)) : py unit :=
  match im with
  | PILImage i => Image.paste (img self) i (default (0, 0) box)
  | Anchored a => Image.paste (img self) (img a) (default (0, 0) box)
  | Other => raise (TypeError "Can only paste Image.Image or AnchoredImage")
  end.

Definition paste_aligned (self : t) (im : t) : py unit :=
  '(ax, ay) ← get_anchor_absolute self;
  '(bx, by') ← get_anchor_absolute im;
  let offset := (Num.py_ceil (ax - bx), Num.py_ceil (ay - by')) in
  paste self (Anchored im) (Some offset).

(** [AnchoredImage(self.img, self.anchor)]: no attribute [anchor] exists. *)
Definition __copy__ (self : t) : py t :=
  raise (AttributeError "AnchoredImage" "anchor").

Definition __deepcopy__ (self : t) : py t :=
  i ← Image.copy (img self);
  a ← get_rel_anchor self;
  __init__ i a true None.

End AnchoredImage.
End AnchoredImage.

(** ** Frame file names *)

(** [f"{n:d}"] for [n >= 0]: the decimal digits, most significant first.
    The fuel bounds the number of digits. *)
Definition digit_char (d : Z) : ascii := ascii_of_nat (48 + Z.to_nat d).

Fixpoint digits_aux (fuel : nat) (n : Z) (acc : string) : string :=
  match fuel with
  | O => acc
  | S f =>
      let acc' := String (digit_char (n mod 10)) acc in
      if n / 10 =? 0 then acc' else digits_aux f (n / 10) acc'
  end.

Definition digits (n : Z) : string := digits_aux (S (Z.to_nat (Z.log2 n))) n "".

Fixpoint zeros (k : nat) : string :=
  match k with O => "" | S k' => String "0"%char (zeros k') end.

(** [str.zfill]: zeros in front up to the width. *)
Definition zfill (w : nat) (s : string) : string :=
  zeros (w - String.length s) +:+ s.

(** [f"{n:05d}"]: at least five characters, the sign first. *)
Definition format_05d (n : Z) : string :=
  if n <? 0 then "-" +:+ zfill 4 (digits (- n)) else zfill 5 (digits n).

(** [f"frame-{nframe:05d}.png"]. *)
Definition frame_name (nframe : Z) : string :=
  "frame-" +:+ format_05d nframe +:+ ".png".

(** [params], the dictionary of an animation. *)
Record params_t : Type := Params {
  preup : Q;
  inner_scale : Q;
  downscale : Q;
  num_frames : Z;
  fps : Z;
  paste_within : bool
}.

(** ** [class FrameWorker] *)

Module FrameWorker.
Section FrameWorker.
Context `{Pillow} `{FloatPow}.

(** The process of a worker.  It runs on its own copy of the store of the
    process that started it; an uncaught exception ends it. *)
Inductive process : Type :=
  | Running (h : heap)
  | Exited
  | Died (e : exn).

(** The attributes [qin], [qout] and [out_dir] of the source are left to
    the [Gifception] object, which holds the queues, and to its
    [tempdir]. *)
Record t : Type := Obj {
  nested_base : AnchoredImage.t;
  params : params_t;
  num : Z;
  proc : process
}.

Definition set_proc (self : t) (p : process) : t :=
  {| nested_base := nested_base self; params := params self;
     num := num self; proc := p |}.

(** [make_frame(nframe)]; the result is the file that [save] writes into
    [out_dir]: its name and its image. *)
Definition make_frame (self : t) (nframe : Z) : py (string * raster) :=
  let p := params self in
  e ← py_div 1 (inject_Z (num_frames p - 1));
  let zoom := fpow (inner_scale p) e in
  let mz := Num.py_pow_int zoom (nframe - 1) in
  frame ← AnchoredImage.__deepcopy__ (nested_base self);
  frame ← AnchoredImage.zoom_in frame mz;
  (if paste_within p then
     try_except_ValueError
       (smaller ← AnchoredImage.__deepcopy__ (nested_base self);
        f ← py_div mz (inner_scale p);
        smaller ← AnchoredImage.scale smaller f None;
        AnchoredImage.paste_aligned frame smaller)
       (ret tt)
   else ret tt);;
  f ← py_div 1 (downscale p);
  frame ← AnchoredImage.scale frame f None;
  r ← read (AnchoredImage.img frame);
  ret (frame_name nframe, r).

(** An item of a queue: a frame number, or the [None] that ends a worker. *)
Definition item : Type := option Z.

(** The state that the processes share. *)
Record shared : Type := Shared {
  qin : list item;
  qout : list item;
  files : gmap string raster
}.

(** One turn of the loop of [run]: [qin.get()], and then either a frame
    made and its number put on [qout], or [None] put on [qout] and the end
    of the process.  [None] as result: the worker cannot move (it has
    ended, or it waits on an empty [qin]). *)
Definition run_step (self : t) (s : shared) : option (t * shared) :=
  match proc self, qin s with
  | Running h, Some nframe :: q =>
      match make_frame self nframe h with
      | Returned (name, r) h' =>
          Some (set_proc self (Running h'),
                {| qin := q; qout := qout s ++ [Some nframe];
                   files := <[name := r]> (files s) |})
      | Raised e _ =>
          Some (set_proc self (Died e),
                {| qin := q; qout := qout s; files := files s |})
      end
  | Running h, None :: q =>
      Some (set_proc self Exited,
            {| qin := q; qout := qout s ++ [None]; files := files s |})
  | _, _ => None
  end.

Definition alive (self : t) : bool :=
  match proc self with Running _ => true | _ => false end.

End FrameWorker.
End FrameWorker.

(** ** [class Gifception] *)

Module Gifception.
Section Gifception.
Context `{Pillow} `{FloatPow}.

(** The [config] dictionary, keys ["max_pixels"] and ["num_processes"]. *)
Record config_t : Type := Config { max_pixels : Q; num_processes : Z }.

Definition _default_config : config_t :=
  {| max_pixels := 800000000 # 1; num_processes := 1 |}.

Definition _default_params : params_t :=
  {| preup := 2; inner_scale := 4; downscale := 2; num_frames := 120;
     fps := 60; paste_within := true |}.

Definition queue : Type := list FrameWorker.item.

(** [qin] and [qout] are [None] while the attribute is unassigned, and
    else hold the Python value: [None] or a queue. *)
Record t : Type := Obj {
  base_image : AnchoredImage.t;
  config : config_t;
  params : params_t;
  nested_base : option AnchoredImage.t;
  frame_workers : list FrameWorker.t;
  qin : option (option queue);
  qout : option (option queue)
}.

(** A [TemporaryDirectory]: its name (the random suffix left out) and the
    files in it. *)
Record tempdir : Type := TempDir {
  name : string;
  contents : gmap string raster
}.

(** [load_image(img)]; the result is the value assigned to
    [self.base_image].  Line 187 reads [AnchoredImage(imge)]: the name
    [imge] is bound neither in the method (its names are [self] and [img])
    nor in the module. *)
Definition load_image (im : AnchoredImage.object) : py AnchoredImage.t :=
  match im with
  | AnchoredImage.PILImage _ => raise (NameError "imge")
  | AnchoredImage.Anchored a => ret a
  | AnchoredImage.Other => raise (TypeError "Need an Image or AnchoredImage!")
  end.

(** [__init__(base_image, config = None, params = None)].  It assigns
    neither [qin] nor [qout]. *)
Definition __init__ (base : AnchoredImage.object) (cfg : option config_t)
    (prm : option params_t) : py t :=
  b ← load_image base;
  ret {| base_image := b;
         config := default _default_config cfg;
         params := default _default_params prm;
         nested_base := None;
         frame_workers := [];
         qin := None; qout := None |}.


Definition get_anchor_absolute (self : t) : py (Q * Q) :=
  AnchoredImage.get_anchor_absolute (base_image self).

(** The [while True] of [prepare_nested_base]; the result is [mini] and
    [true_scale] at the [break], or [None] when the fuel runs out first. *)
Fixpoint paste_loop (fuel : nat) (nested mini : AnchoredImage.t)
    (s true_scale : Q) : py (option (AnchoredImage.t * Q)) :=
  match fuel with
  | O => ret None
  | S fuel' =>
      fun h =>
        match (AnchoredImage.paste_aligned nested mini;;
               AnchoredImage.scale mini s None) h with
        | Returned mini' h' =>
            paste_loop fuel' nested mini' s (true_scale * s)%Q h'
        | Raised e h' =>
            if is_ValueError e then Returned (Some (mini, true_scale)) h'
            else Raised e h'
        end
  end.

(** The result is the value of [self.nested_base] at the end, or [None]
    when the loop needs more than [fuel] turns. *)
Definition prepare_nested_base (fuel : nat) (self : t)
  : py (option AnchoredImage.t) :=
  nb ← AnchoredImage.__deepcopy__ (base_image self);
  nb ← AnchoredImage.scale nb (preup (params self)) None;
  mini ← AnchoredImage.__deepcopy__ (base_image self);
  s ← py_div 1 (inner_scale (params self));
  mini ← AnchoredImage.scale mini (preup (params self) * s)%Q None;
  r ← paste_loop fuel nb mini s s;
  ret (match r with Some _ => Some nb | None => None end).

(** [Queue(maxsize)] holds any number of items when [maxsize <= 0]. *)
Definition fits (maxsize : Z) (l : queue) : bool :=
  (maxsize <=? 0) || (Z.of_nat (length l) <=? maxsize).

(** The result is the directory and the object, or [None] when the call
    does not return: the loop above runs out of fuel, or a [put] waits on
    a full queue. *)
Definition start_making_frames (fuel : nat) (self : t)
  : py (option (tempdir * t)) :=
  if negb (Nat.eqb (length (frame_workers self)) 0)
  then raise (GifceptionException "Frame generation still in progress!")
  else
    nbo ← match nested_base self with
          | None => prepare_nested_base fuel self
          | Some nb => ret (Some nb)
          end;
    match nbo with
    | None => ret None
    | Some nb =>
        let td := {| name := "gifception_"; contents := ∅ |} in
        let nt := num_processes (config self) in
        let nf := num_frames (params self) in
        let qin_l : queue :=
          (Some <$> seqZ 1 nf) ++ replicate (Z.to_nat nt) None in
        if negb (fits (nt + nf) qin_l) then ret None
        else
          fun h =>
            let fws :=
              (fun pn => {| FrameWorker.nested_base := nb;
                            FrameWorker.params := params self;
                            FrameWorker.num := pn;
                            FrameWorker.proc := FrameWorker.Running h |})
                <$> seqZ 1 nt in
            Returned
              (Some (td,
                     {| base_image := base_image self;
                        config := config self;
                        params := params self;
                        nested_base := Some nb;
                        frame_workers := fws;
                        qin := Some (Some qin_l);
                        qout := Some (Some []) |})) h
    end.

(** The processes run while the parent waits.  [turn i] lets the worker at
    position [i] make one turn of its loop; [None] when it cannot move. *)
Definition turn (i : nat) (self : t) (td : tempdir) : option (t * tempdir) :=
  match frame_workers self !! i, qin self, qout self with
  | Some fw, Some (Some qi), Some (Some qo) =>
      match FrameWorker.run_step fw
              {| FrameWorker.qin := qi; FrameWorker.qout := qo;
                 FrameWorker.files := contents td |} with
      | Some (fw', s) =>
          Some ({| base_image := base_image self;
                   config := config self;
                   params := params self;
                   nested_base := nested_base self;
                   frame_workers := <[i := fw']> (frame_workers self);
                   qin := Some (Some (FrameWorker.qin s));
                   qout := Some (Some (FrameWorker.qout s)) |},
                {| name := name td; contents := FrameWorker.files s |})
      | None => None
      end
  | _, _, _ => None
  end.

(** A schedule names the worker that moves next; a worker that cannot move
    lets its turn pass. *)
Fixpoint run (sched : list nat) (self : t) (td : tempdir) : t * tempdir :=
  match sched with
  | [] => (self, td)
  | i :: sched' =>
      match turn i self td with
      | Some (self', td') => run sched' self' td'
      | None => run sched' self td
      end
  end.

(** What a call that waits for the workers comes to. *)
Inductive waited : Type :=
  | Waiting                         (* a [join] has not returned *)
  | Raises (e : exn)
  | Returns (self : t) (td : tempdir).

(** [wait_for_frames()], with no timeout, under the schedule [sched] of
    the workers.  Every [join] returns once every worker has ended. *)
Definition wait_for_frames (sched : list nat) (self : t) (td : tempdir)
  : waited :=
  match qin self with
  | None => Raises (AttributeError "Gifception" "qin")
  | Some None =>
      Raises (GifceptionException "No frame-generating process was ever started!")
  | Some (Some _) =>
      let '(self', td') := run sched self td in
      if existsb FrameWorker.alive (frame_workers self') then Waiting
      else
        match qin self', qout self' with
        | Some (Some qi), Some (Some qo) =>
            if negb (Nat.eqb (length qi) 0)
            then Raises (GifceptionException "Not all frames were consumed!")
            else
              let tq := num_processes (config self') + num_frames (params self') in
              if negb (Z.of_nat (length qo) =? tq)
              then Raises (GifceptionException "Not all frames were produced!")
              else Returns
                     {| base_image := base_image self';
                        config := config self';
                        params := params self';
                        nested_base := nested_base self';
                        frame_workers := [];
                        qin := qin self'; qout := qout self' |} td'
        | _, _ => Raises (AttributeError "Gifception" "qin")
        end
  end.

(** [make_frames()]: the directory with the frames, and the object. *)
Definition make_frames (fuel : nat) (sched : list nat) (self : t)
  : py (option (tempdir * t)) :=
  fun h =>
    match start_making_frames fuel self h with
    | Returned (Some (td, self')) h' =>
        match wait_for_frames sched self' td with
        | Waiting => Returned None h'
        | Raises e => Raised e h'
        | Returns self'' td' => Returned (Some (td', self'')) h'
        end
    | Returned None h' => Returned None h'
    | Raised e h' => Raised e h'
    end.

(** [is_making_frames()]; it touches no image. *)
Definition is_making_frames (self : t) : exn + bool :=
  let tq := num_processes (config self) + num_frames (params self) in
  match qout self with
  | None => inl (AttributeError "Gifception" "qout")
  | Some None => inl (AttributeError "NoneType" "qsize")
  | Some (Some q) => inr (Z.of_nat (length q) <? tq)
  end.


(** [set_anchor_absolute(pt)]; what the call on [base_image] returns is
    dropped. *)
Definition set_anchor_absolute (self : t) (pt : Q * Q) : py t :=
  '(_, b) ← AnchoredImage.set_anchor_absolute (base_image self) pt;
  ret {| base_image := b;
         config := config self;
         params := params self;
         nested_base := nested_base self;
         frame_workers := frame_workers self;
         qin := qin self; qout := qout self |}.

End Gifception.
End Gifception.

(** ** Instances to compute with *)

(** Pixels as the history of the Pillow calls that made them. *)
Inductive history : Type :=
  | Decoded (file : nat)
  | Resampled (f : filter) (sz : Z * Z) (d : history) (sz' : Z * Z)
  | Cropped (sz : Z * Z) (d : history) (box : box4 Z)
  | Pasted (sz : Z * Z) (d : history) (sz' : Z * Z) (d' : history) (at_ : Z * Z).

Definition HistoryPillow : Pillow :=
  {| pixels := history; resample := Resampled; crop_pixels := Cropped;
     paste_pixels := Pasted |}.

(** The largest [r] with [r ^ k <= n], by bisection between [lo] and [hi]. *)
Fixpoint root_search (fuel : nat) (k : positive) (n lo hi : Z) : Z :=
  match fuel with
  | O => lo
  | S fuel' =>
      if hi - lo <=? 1 then lo
      else
        let mid := (lo + hi) / 2 in
        if mid ^ Z.pos k <=? n then root_search fuel' k n mid hi
        else root_search fuel' k n lo mid
  end.

Definition floor_root (k : positive) (n : Z) : Z :=
  root_search (S (Z.to_nat (Z.log2_up (n + 1)))) k n 0 (n + 1).

(** [x ** y] rounded down to a multiple of [2 ^ -52] of the denominator of
    [x ** numerator], and never below one such unit. *)
Definition approx_pow (x y : Q) : Q :=
  let a := Qpower x (Qnum y) in
  let k := Qden y in
  let n := Qnum a * Z.pos (Qden a) ^ (Z.pos k - 1) * (2 ^ 52) ^ Z.pos k in
  Z.max 1 (floor_root k n) # (Qden a * 2 ^ 52).

(** A computable [FloatPow]. *)
Definition ApproxPow : FloatPow.
Proof.
  refine {| fpow := approx_pow |}.
  intros x y _. unfold approx_pow, Qlt. simpl. lia.
Defined.

(** The operations of an [AnchoredImage] that change its image. *)
Inductive transform `{Pillow} : Type :=
  | Scale (factor : Q) (max_pixels : option Q)
  | ZoomIn (factor : Q)
  | PasteAligned (other : AnchoredImage.t).

Definition apply `{Pillow} (o : transform) (self : AnchoredImage.t)
  : py AnchoredImage.t :=
  match o with
  | Scale factor mp => AnchoredImage.scale self factor mp
  | ZoomIn factor => AnchoredImage.zoom_in self factor
  | PasteAligned other => AnchoredImage.paste_aligned self other;; mret self
  end.

(** The box of [zoom_in], in integers: offset and size of the crop. *)
Definition zoom_box `{Pillow} (r : raster) (anc : Q * Q) (factor : Q) : box4 Z :=
  (Num.py_round (fst anc * inject_Z (width r) * (1 - 1 / factor)),
   Num.py_round (snd anc * inject_Z (height r) * (1 - 1 / factor)),
   Num.py_round (inject_Z (width r) / factor),
   Num.py_round (inject_Z (height r) / factor)).

(** The size of the frames of an animation whose nested base is [r]:
    [scale(1 / downscale)] of it. *)
Definition frame_size (p : params_t) `{Pillow} (r : raster) : Z * Z :=
  (Num.py_int (inject_Z (width r) * (1 / downscale p)),
   Num.py_int (inject_Z (height r) * (1 / downscale p))).

(** What [make_frame] needs of the parameters and of the nested base [r] to
    return: both sides of [r] at least 1, more than one frame, a positive
    [inner_scale], a [downscale] other than 0, and a frame within the
    [max_pixels] of [AnchoredImage._default_config] and with both sides at
    least 1 (or of the size of [r]). *)
Definition renderable (p : params_t) `{Pillow} (r : raster) : Prop :=
  1 <= width r /\ 1 <= height r
  /\ num_frames p <> 1
  /\ (0 < inner_scale p)%Q
  /\ ~ (downscale p == 0)%Q
  /\ (inject_Z (width r * height r) * Num.py_pow_int (1 / downscale p) 2
      <= 800000000 # 1)%Q
  /\ (frame_size p r = raster_size r
      \/ (1 <= fst (frame_size p r) /\ 1 <= snd (frame_size p r))).

(** Reading a frame number back from a file name: the digits after the six
    characters of ["frame-"], up to the first character that is no digit. *)
Definition is_digit (c : ascii) : bool :=
  (48 <=? nat_of_ascii c)%nat && (nat_of_ascii c <=? 57)%nat.

Definition digit_val (c : ascii) : Z := Z.of_nat (nat_of_ascii c) - 48.

Fixpoint parse_digits (s : string) (acc : Z) : Z :=
  match s with
  | String c s' =>
      if is_digit c then parse_digits s' (10 * acc + digit_val c) else acc
  | EmptyString => acc
  end.

Fixpoint string_drop (k : nat) (s : string) : string :=
  match k, s with
  | S k', String _ s' => string_drop k' s'
  | _, _ => s
  end.

Definition frame_number (name : string) : Z := parse_digits (string_drop 6 name) 0.

(** The names of the frames 1 to [n]. *)
Definition frame_names (n : Z) : list string := frame_name <$> seqZ 1 n.

(** ** The workers as a transition system *)

Section Pool.
Context `{Pillow} `{FloatPow}.

(** No worker is running any more: every [join] returns. *)
Definition ended (self : Gifception.t) : bool :=
  negb (existsb FrameWorker.alive (Gifception.frame_workers self)).

(** The turns of a schedule in which a worker moved. *)
Fixpoint moves (sched : list nat) (self : Gifception.t) (td : Gifception.tempdir)
  : nat :=
  match sched with
  | [] => 0
  | i :: sched' =>
      match Gifception.turn i self td with
      | Some (self', td') => S (moves sched' self' td')
      | None => moves sched' self td
      end
  end.

Definition num_alive (ws : list FrameWorker.t) : nat :=
  length (List.filter FrameWorker.alive ws).

(** A worker of the run on the nested base [nb] with raster [r]: it runs
    with [nb] intact in its store, or has ended at a [None]. *)
Definition worker_ok (nb : AnchoredImage.t) (p : params_t) (r : raster)
    (fw : FrameWorker.t) : Prop :=
  FrameWorker.nested_base fw = nb
  /\ FrameWorker.params fw = p
  /\ match FrameWorker.proc fw with
     | FrameWorker.Running hw => hw !! AnchoredImage.img nb = Some r
     | FrameWorker.Exited => True
     | FrameWorker.Died _ => False
     end.

(** The state of a run of [nf] frames on [np] workers after [j] frames were
    made and [e] workers have ended. *)
Record pool_inv (nb : AnchoredImage.t) (p : params_t) (r : raster)
    (nf np j e : nat) (self : Gifception.t) (td : Gifception.tempdir) : Prop := {
  inv_j : (j <= nf)%nat;
  inv_e : (e <= np)%nat;
  inv_je : e <> 0%nat -> j = nf;
  inv_params : Gifception.params self = p;
  inv_nf : num_frames p = Z.of_nat nf;
  inv_np : Gifception.num_processes (Gifception.config self) = Z.of_nat np;
  inv_qin :
    Gifception.qin self
    = Some (Some ((Some <$> seqZ (1 + Z.of_nat j) (Z.of_nat (nf - j)))
                  ++ replicate (np - e) None));
  inv_qout :
    Gifception.qout self
    = Some (Some ((Some <$> seqZ 1 (Z.of_nat j)) ++ replicate e None));
  inv_len : length (Gifception.frame_workers self) = np;
  inv_workers : Forall (worker_ok nb p r) (Gifception.frame_workers self);
  inv_alive : num_alive (Gifception.frame_workers self) = (np - e)%nat;
  inv_dom :
    dom (Gifception.contents td) = list_to_set (frame_names (Z.of_nat j));
  inv_sizes :
    map_Forall (fun _ x => raster_size x = frame_size p r) (Gifception.contents td)
}.

End Pool.

(** ** The nested base, on rasters *)

Section Nesting.
Context `{Pillow}.




End Nesting.


(** ** Concrete runs *)

Section Runs.
#[local] Existing Instance HistoryPillow.
#[local] Existing Instance ApproxPow.

(** A decoded picture of 800 by 600, alone in the store, and the
    [AnchoredImage] on it with the anchor in the middle. *)
Definition photo : raster := Raster 800 600 (Decoded 0).
Definition store0 : heap := [photo].
Definition base : AnchoredImage.t :=
  {| AnchoredImage.img := 0%nat;
     AnchoredImage.config := AnchoredImage._default_config;
     AnchoredImage.rel_anchor := Some (1 # 2, 1 # 2)%Q |}.

(** The same image with a [config] of its own. *)
Definition limited : AnchoredImage.t :=
  {| AnchoredImage.img := 0%nat;
     AnchoredImage.config :=
       {| AnchoredImage.max_pixels := 1000000 # 1;
          AnchoredImage.resampler := NEAREST |};
     AnchoredImage.rel_anchor := Some (1 # 4, 3 # 4)%Q |}.

(** The scenario of the specification (section 8). *)
Definition scenario : Gifception.t :=
  {| Gifception.base_image := base;
     Gifception.config :=
       {| Gifception.max_pixels := 800000000 # 1; Gifception.num_processes := 3 |};
     Gifception.params :=
       {| preup := 2; inner_scale := 4; downscale := 2; num_frames := 5;
          fps := 60; paste_within := true |};
     Gifception.nested_base := None;
     Gifception.frame_workers := [];
     Gifception.qin := None;
     Gifception.qout := None |}.

(** The scenario with a [downscale] that leaves no pixel of a frame: the
    final [scale] of every frame raises. *)
Definition doomed : Gifception.t :=
  {| Gifception.base_image := base;
     Gifception.config :=
       {| Gifception.max_pixels := 800000000 # 1; Gifception.num_processes := 3 |};
     Gifception.params :=
       {| preup := 2; inner_scale := 4; downscale := 10000; num_frames := 5;
          fps := 60; paste_within := true |};
     Gifception.nested_base := None;
     Gifception.frame_workers := [];
     Gifception.qin := None;
     Gifception.qout := None |}.

(** The scenario with one frame only. *)
Definition single : Gifception.t :=
  {| Gifception.base_image := base;
     Gifception.config :=
       {| Gifception.max_pixels := 800000000 # 1; Gifception.num_processes := 3 |};
     Gifception.params :=
       {| preup := 2; inner_scale := 4; downscale := 2; num_frames := 1;
          fps := 60; paste_within := true |};
     Gifception.nested_base := None;
     Gifception.frame_workers := [];
     Gifception.qin := None;
     Gifception.qout := None |}.

(** The scenario with limits of one pixel and another filter in the
    settings. *)
Definition tuned : Gifception.t :=
  {| Gifception.base_image :=
       {| AnchoredImage.img := 0%nat;
          AnchoredImage.config :=
            {| AnchoredImage.max_pixels := 1 # 1;
               AnchoredImage.resampler := NEAREST |};
          AnchoredImage.rel_anchor := Some (1 # 2, 1 # 2)%Q |};
     Gifception.config :=
       {| Gifception.max_pixels := 1 # 1; Gifception.num_processes := 3 |};
     Gifception.params :=
       {| preup := 2; inner_scale := 4; downscale := 2; num_frames := 5;
          fps := 60; paste_within := true |};
     Gifception.nested_base := None;
     Gifception.frame_workers := [];
     Gifception.qin := None;
     Gifception.qout := None |}.

(** The three workers taking turns. *)
Definition round_robin : list nat := [0; 1; 2; 0; 1; 2; 0; 1]%nat.

(** The size of a file of the directory that a call returned. *)
Definition file_size (o : outcome (option (Gifception.tempdir * Gifception.t)))
    (name : string) : option (Z * Z) :=
  match o with
  | Returned (Some (td, _)) _ => raster_size <$> Gifception.contents td !! name
  | _ => None
  end.



End Runs.

(** ** The tally of a run *)

Section Tally.
Context `{Pillow} `{FloatPow}.

Definition died (fw : FrameWorker.t) : bool :=
  match FrameWorker.proc fw with FrameWorker.Died _ => true | _ => false end.

Definition num_died (ws : list FrameWorker.t) : nat :=
  length (List.filter died ws).

(** The state of a run after [k] items of the queue [init] were taken,
    whatever became of the frames: [qin] holds the rest, every item taken is
    on [qout] or has cost a worker, and while no worker has died the files
    are those of the frame numbers taken. *)
Record tally (init : Gifception.queue) (p : params_t) (c : Gifception.config_t)
    (k : nat) (self : Gifception.t) (td : Gifception.tempdir) : Prop := {
  tally_k : (k <= length init)%nat;
  tally_params : Gifception.params self = p;
  tally_config : Gifception.config self = c;
  tally_qin : Gifception.qin self = Some (Some (drop k init));
  tally_qout :
    exists qo,
      Gifception.qout self = Some (Some qo)
      /\ (length qo + num_died (Gifception.frame_workers self) = k)%nat;
  tally_files :
    num_died (Gifception.frame_workers self) = 0%nat ->
    dom (Gifception.contents td)
    = list_to_set (frame_name <$> omap id (take k init))
}.

(** The directory that a call gave, without the object. *)
Definition directory (o : outcome (option (Gifception.tempdir * Gifception.t)))
  : outcome (option Gifception.tempdir) :=
  match o with
  | Returned (Some (td, _)) h => Returned (Some td) h
  | Returned None h => Returned None h
  | Raised e h => Raised e h
  end.

(** Two objects in the same state of a run: they agree on everything but
    the base image and the [max_pixels] of the [config]. *)
Record same_state (x' x : Gifception.t) : Prop := {
  same_params : Gifception.params x' = Gifception.params x;
  same_processes :
    Gifception.num_processes (Gifception.config x')
    = Gifception.num_processes (Gifception.config x);
  same_nested_base : Gifception.nested_base x' = Gifception.nested_base x;
  same_workers : Gifception.frame_workers x' = Gifception.frame_workers x;
  same_qin : Gifception.qin x' = Gifception.qin x;
  same_qout : Gifception.qout x' = Gifception.qout x
}.

End Tally.

(** * [gcanimators.py]: from a directory of frames to an animation *)

(** ** Strings and paths

    File names and formats are strings of ASCII characters. *)

(** [str.lower()]. *)
Definition lower_char (c : ascii) : ascii :=
  let n := nat_of_ascii c in
  if (65 <=? n)%nat && (n <=? 90)%nat then ascii_of_nat (n + 32) else c.

Fixpoint lower (s : string) : string :=
  match s with
  | EmptyString => EmptyString
  | String c s' => String (lower_char c) (lower s')
  end.

(** [s.endswith(suffix)]. *)
Fixpoint endswith (s suffix : string) : bool :=
  String.eqb s suffix
  || match s with
     | EmptyString => false
     | String _ s' => endswith s' suffix
     end.

(** [os.path.join(a, b)] of [posixpath]. *)
Definition path_join (a b : string) : string :=
  if String.prefix "/" b then b
  else if String.eqb a "" || endswith a "/" then a +:+ b
  else a +:+ "/" +:+ b.

(** What is left of the path [p] after the directory [d], when [p] lies
    in it. *)
Fixpoint strip_prefix (d p : string) : option string :=
  match d, p with
  | EmptyString, _ => Some p
  | String a d', String b p' =>
      if Ascii.eqb a b then strip_prefix d' p' else None
  | String _ _, EmptyString => None
  end.

(** A string of decimal digits. *)
Fixpoint all_digits (s : string) : bool :=
  match s with
  | EmptyString => true
  | String c s' => is_digit c && all_digits s'
  end.

(** ** [class GCAnimator] *)

Module GCAnimator.
Section GCAnimator.
Context `{Pillow}.

Inductive value_error : Type :=
  | UndeterminedFormat (output_file_name : string)
      (* "Could not determine format from filename ...", gcanimators.py:78 *)
  | UnsupportedFormat (fmt name : string)
      (* "Unsupported fmt {fmt} for animator {n}!", gcanimators.py:86 *)
  | FrameOutOfBounds (nframe : Z).
      (* "Frame #{nframe} is out of bounds!", gcanimators.py:98 *)

Inductive error : Type :=
  | ValueError (v : value_error)
  | IOError (msg : string)
  | ModuleNotFoundError (msg : string)
  | IndexError (msg : string)
  | ZeroDivisionError
  | FileNotFoundError (path : string).

(** What a subclass defines with its class methods; [available()] is a
    pair [(bool, str)] that depends on the installation. *)
Record class : Type := Class {
  name : string;
  available : bool * string;
  available_formats : list string
}.

Record t : Type := Obj {
  cls : class;
  frame_dir : Gifception.tempdir;
  params : params_t
}.

(** The truth value of a tuple: true when it has an element. *)
Definition truth (x : bool * string) : bool := true.

(** [__init__(frame_dir, params)] of the class [c]. *)
Definition __init__ (c : class) (frame_dir : Gifception.tempdir)
    (params : params_t) : error + t :=
  if negb (truth (available c))
  then inl (ModuleNotFoundError
              ("Animation module " +:+ name c +:+ " not available!"))
  else inr {| cls := c; frame_dir := frame_dir; params := params |}.

(** [animate(output_file_name, fmt = None, overwrite = True)], up to the
    call [self._animate(output_file_name, fmt)] that ends it: the result
    is the arguments of that call.  [exists_] is [os.path.exists]. *)
Definition animate (self : t) (exists_ : string -> bool)
    (output_file_name : string) (fmt : option string) (overwrite : bool)
  : error + (string * string) :=
  let fmt :=
    match fmt with
    | None =>
        List.find (fun avf => endswith (lower output_file_name) avf)
          (available_formats (cls self))
    | Some f => Some f
    end in
  match fmt with
  | None => inl (ValueError (UndeterminedFormat output_file_name))
  | Some fmt =>
      let fmt := lower fmt in
      if exists_ output_file_name && negb overwrite
      then inl (IOError "Output file exists")
      else if negb (existsb (String.eqb fmt) (available_formats (cls self)))
      then inl (ValueError (UnsupportedFormat fmt (name (cls self))))
      else
        let output_file_name :=
          if negb (endswith (lower output_file_name) ("." +:+ fmt))
          then output_file_name +:+ "." +:+ fmt
          else output_file_name in
        inr (output_file_name, fmt)
  end.

(** [frame_range()]: [range(1, num_frames + 1)]. *)
Definition frame_range (self : t) : list Z := seqZ 1 (num_frames (params self)).

(** [frame_path(nframe)]. *)
Definition frame_path (self : t) (nframe : Z) : error + string :=
  if negb (existsb (Z.eqb nframe) (frame_range self))
  then inl (ValueError (FrameOutOfBounds nframe))
  else inr (path_join (Gifception.name (frame_dir self)) (frame_name nframe)).

End GCAnimator.
End GCAnimator.

(** ** [class PillowGIF] *)

Module PillowGIF.
Section PillowGIF.
Context `{Pillow}.

Definition class (av : bool * string) : GCAnimator.class :=
  {| GCAnimator.name := "PIL.Image GIF output";
     GCAnimator.available := av;
     GCAnimator.available_formats := ["gif"%string] |}.


(** [Image.open(path)]; the files are those of the frame directory. *)
Definition open (td : Gifception.tempdir) (p : string)
  : GCAnimator.error + raster :=
  match strip_prefix (path_join (Gifception.name td) "") p with
  | Some f =>
      match Gifception.contents td !! f with
      | Some r => inr r
      | None => inl (GCAnimator.FileNotFoundError p)
      end
  | None => inl (GCAnimator.FileNotFoundError p)
  end.



End PillowGIF.
End PillowGIF.

(** ** [class FFmpegBindings] *)

Module FFmpegBindings.

Definition class (av : bool * string) : GCAnimator.class :=
  {| GCAnimator.name := "FFmpeg via ffmpeg-python";
     GCAnimator.available := av;
     GCAnimator.available_formats := ["gif"%string; "webm"%string] |}.

End FFmpegBindings.

Section AnimatorRuns.
#[local] Existing Instance HistoryPillow.

(** An animator of the class [FFmpegBindings] on an empty directory. *)
Definition clip : GCAnimator.t :=
  {| GCAnimator.cls := FFmpegBindings.class (true, "ok"%string);
     GCAnimator.frame_dir :=
       {| Gifception.name := "gifception_"; Gifception.contents := ∅ |};
     GCAnimator.params := Gifception._default_params |}.

End AnimatorRuns.

(** * Properties *)

(** ** Numbers *)

Lemma Qgtb_lt (a b : Q) : Num.Qgtb a b = true <-> (b < a)%Q.
Proof.
  unfold Num.Qgtb. rewrite negb_true_iff, <- not_true_iff_false, Qle_bool_iff.
  split; [apply Qnot_le_lt | apply Qlt_not_le].
Qed.

Lemma Qgtb_le (a b : Q) : Num.Qgtb a b = false <-> (a <= b)%Q.
Proof.
  unfold Num.Qgtb. rewrite negb_false_iff. apply Qle_bool_iff.
Qed.

Lemma is_zero_false (a : Q) : ~ (a == 0)%Q -> Num.is_zero a = false.
Proof.
  intros Ha. unfold Num.is_zero. apply not_true_iff_false.
  intros E. apply Ha. now apply Qeq_bool_iff.
Qed.

Lemma py_round_Z (x : Q) (z : Z) : (x == inject_Z z)%Q -> Num.py_round x = z.
Proof.
  intros E. unfold Num.py_round.
  assert (F : Qfloor x = z) by (rewrite E; apply Qfloor_Z).
  rewrite F.
  assert (D : ((x - inject_Z z) ?= 1 # 2)%Q = Lt).
  { rewrite E. apply (proj1 (Qlt_alt _ _)).
    assert (D : (inject_Z z - inject_Z z == 0)%Q) by ring.
    rewrite D. reflexivity. }
  now rewrite D.
Qed.

Lemma py_round_inject (z : Z) : Num.py_round (inject_Z z) = z.
Proof. now apply py_round_Z. Qed.

Lemma py_round_nonneg (x : Q) : (0 <= x)%Q -> 0 <= Num.py_round x.
Proof.
  intros Hx. unfold Num.py_round.
  assert (0 <= Qfloor x).
  { change 0 with (Qfloor 0). now apply Qfloor_resp_le. }
  destruct (_ ?= _)%Q; [destruct (Z.even _)|..]; lia.
Qed.

(** ** The store *)

Section Properties.
Context `{Pillow} `{FloatPow}.

Ltac py_unfold :=
  unfold mbind, py_bind, mret, py_ret, bind, ret, raise, read, alloc, write in *.

Lemma size_at (a : AnchoredImage.t) (h : heap) (r : raster) :
  h !! AnchoredImage.img a = Some r ->
  AnchoredImage.size a h = Returned (width r, height r) h.
Proof.
  intros E. unfold AnchoredImage.size, Image.size. py_unfold. now rewrite E.
Qed.

(** ** [scale] *)

Lemma scale_unfold (a : AnchoredImage.t) (h : heap) (r : raster) (factor : Q)
    (mp : option Q) :
  h !! AnchoredImage.img a = Some r ->
  let limit := AnchoredImage.max_pixels (AnchoredImage.config a) in
  let npx := (inject_Z (width r * height r) * Num.py_pow_int factor 2)%Q in
  AnchoredImage.scale a factor mp h =
    if Num.Qgtb npx limit && Num.Qgtb limit 0
    then Raised (ValueError (ExceedsMaxPixels npx (AnchoredImage.or_else mp limit))) h
    else
      match Image.resize (AnchoredImage.img a)
              (Num.py_int (inject_Z (width r) * factor),
               Num.py_int (inject_Z (height r) * factor))
              (AnchoredImage.resampler (AnchoredImage.config a)) h with
      | Returned i h' => Returned (AnchoredImage.set_img a i) h'
      | Raised e h' => Raised e h'
      end.
Proof.
  intros E limit npx. unfold AnchoredImage.scale.
  unfold mbind at 1, py_bind at 1, bind at 1. rewrite (size_at _ _ _ E).
  fold limit. fold npx.
  destruct (Num.Qgtb npx limit && Num.Qgtb limit 0); [reflexivity|].
  py_unfold. now destruct (Image.resize _ _ _ h).
Qed.




(** With a [max_pixels] argument other than [None] and 0 the test is still
    the one against the [config], and the message names the argument. *)
Lemma scale_limit_argument (a : AnchoredImage.t) (h : heap) (r : raster)
    (factor m : Q) :
  h !! AnchoredImage.img a = Some r ->
  ~ (m == 0)%Q ->
  let limit := AnchoredImage.max_pixels (AnchoredImage.config a) in
  let npx := (inject_Z (width r * height r) * Num.py_pow_int factor 2)%Q in
  (npx > limit)%Q -> (limit > 0)%Q ->
  AnchoredImage.scale a factor (Some m) h
  = Raised (ValueError (ExceedsMaxPixels npx m)) h.
Proof.
  intros E M limit npx L P. rewrite (scale_unfold _ _ _ _ _ E).
  fold limit npx.
  rewrite (proj2 (Qgtb_lt npx limit) L), (proj2 (Qgtb_lt limit 0) P).
  simpl. now rewrite (is_zero_false _ M).
Qed.

(** ** Reading a computation step by step *)

Lemma bind_returned {A B} (m : py A) (k : A -> py B) (h h' : heap) (b : B) :
  (m ≫= k) h = Returned b h' ->
  exists a h1, m h = Returned a h1 /\ k a h1 = Returned b h'.
Proof.
  py_unfold. destruct (m h) as [a h1|e h1]; [eauto|discriminate].
Qed.

Lemma bind_raised {A B} (m : py A) (k : A -> py B) (h h' : heap) (e : exn) :
  (m ≫= k) h = Raised e h' ->
  m h = Raised e h' \/ exists a h1, m h = Returned a h1 /\ k a h1 = Raised e h'.
Proof.
  py_unfold. destruct (m h) as [a h1|e1 h1]; [eauto|].
  intros [= -> ->]. now left.
Qed.

Lemma bind_step {A B} (m : py A) (k : A -> py B) (h h1 : heap) (a : A) :
  m h = Returned a h1 -> (m ≫= k) h = k a h1.
Proof. intros E. py_unfold. now rewrite E. Qed.

Lemma bind_fail {A B} (m : py A) (k : A -> py B) (h h1 : heap) (e : exn) :
  m h = Raised e h1 -> (m ≫= k) h = Raised e h1.
Proof. intros E. py_unfold. now rewrite E. Qed.

(** ** Pillow calls *)

Lemma copy_at (l : loc) (h : heap) (r : raster) :
  h !! l = Some r -> Image.copy l h = Returned (length h) (h ++ [r]).
Proof. intros E. unfold Image.copy. py_unfold. now rewrite E. Qed.

Lemma resize_at (l : loc) (sz : Z * Z) (f : filter) (h : heap) (r : raster) :
  h !! l = Some r ->
  Image.resize l sz f h =
    if decide (raster_size r = sz) then Returned (length h) (h ++ [r])
    else if decide (fst sz < 1 \/ snd sz < 1)
         then Raised (ValueError PillowBadSize) h
         else Returned (length h)
                (h ++ [Raster (fst sz) (snd sz)
                         (resample f (raster_size r) (data r) sz)]).
Proof.
  intros E. unfold Image.resize. py_unfold. rewrite E.
  now repeat case_decide.
Qed.

Lemma resize_returned (l : loc) (sz : Z * Z) (f : filter) (h h' : heap) (i : loc) :
  Image.resize l sz f h = Returned i h' ->
  exists r r', h !! l = Some r /\ i = length h /\ h' = h ++ [r']
               /\ raster_size r' = sz
               /\ (raster_size r = sz -> r' = r).
Proof.
  destruct (h !! l) as [r|] eqn:E.
  - rewrite (resize_at _ _ _ _ _ E). destruct sz as [w hh].
    repeat case_decide; intros [= <- <-]; eexists r, _;
      repeat split; try reflexivity; try assumption; try tauto.
  - unfold Image.resize. py_unfold. now rewrite E.
Qed.

Lemma resize_raised (l : loc) (sz : Z * Z) (f : filter) (h h' : heap) (e : exn) :
  Image.resize l sz f h = Raised e h' ->
  h' = h /\ (e = InvalidHandle \/ e = ValueError PillowBadSize).
Proof.
  unfold Image.resize. py_unfold. destruct (h !! l).
  - repeat case_decide; intros [= <- <-] || discriminate; auto.
  - intros [= <- <-]; auto.
Qed.

Lemma crop_at (l : loc) (x0 y0 x1 y1 : Q) (h : heap) (r : raster) :
  h !! l = Some r ->
  let b := (Num.py_round x0, Num.py_round y0, Num.py_round x1, Num.py_round y1) in
  Image.crop l (x0, y0, x1, y1) h =
    if decide (Num.py_round x1 < Num.py_round x0 \/ Num.py_round y1 < Num.py_round y0)
    then Raised (ValueError PillowBadBox) h
    else Returned (length h)
           (h ++ [Raster (Num.py_round x1 - Num.py_round x0)
                    (Num.py_round y1 - Num.py_round y0)
                    (crop_pixels (raster_size r) (data r) b)]).
Proof.
  intros E b. unfold Image.crop. py_unfold. rewrite E.
  repeat case_decide; try reflexivity; tauto.
Qed.

Lemma paste_at (l src : loc) (at_ : Z * Z) (h : heap) (r s : raster) :
  h !! l = Some r -> h !! src = Some s ->
  Image.paste l src at_ h =
    Returned tt
      (<[l := Raster (width r) (height r)
                (paste_pixels (raster_size r) (data r) (raster_size s) (data s) at_)]> h).
Proof.
  intros E F. unfold Image.paste. py_unfold. now rewrite E, F, E.
Qed.

Lemma paste_returned (l src : loc) (at_ : Z * Z) (h h' : heap) :
  Image.paste l src at_ h = Returned tt h' ->
  exists r s, h !! l = Some r /\ h !! src = Some s
    /\ h' = <[l := Raster (width r) (height r)
                 (paste_pixels (raster_size r) (data r) (raster_size s) (data s) at_)]> h.
Proof.
  destruct (h !! l) as [r|] eqn:E; [destruct (h !! src) as [s|] eqn:F|].
  - rewrite (paste_at _ _ _ _ _ _ E F). intros [= <-]. eauto.
  - unfold Image.paste. py_unfold. now rewrite E, F.
  - unfold Image.paste. py_unfold. now rewrite E.
Qed.

Lemma paste_raised (l src : loc) (at_ : Z * Z) (h h' : heap) (e : exn) :
  Image.paste l src at_ h = Raised e h' -> h' = h /\ e = InvalidHandle.
Proof.
  unfold Image.paste. py_unfold.
  destruct (h !! l) as [r|] eqn:E; [destruct (h !! src) as [s|] eqn:F|].
  - now rewrite E.
  - intros [= <- <-]; auto.
  - intros [= <- <-]; auto.
Qed.

(** ** [AnchoredImage] calls *)

Lemma size_returned (a : AnchoredImage.t) (h h' : heap) (sz : Z * Z) :
  AnchoredImage.size a h = Returned sz h' ->
  h' = h /\ exists r, h !! AnchoredImage.img a = Some r /\ sz = raster_size r.
Proof.
  unfold AnchoredImage.size, Image.size. py_unfold.
  destruct (h !! AnchoredImage.img a) as [r|]; [|discriminate].
  intros [= <- <-]. eauto.
Qed.

Lemma size_raised (a : AnchoredImage.t) (h h' : heap) (e : exn) :
  AnchoredImage.size a h = Raised e h' ->
  h' = h /\ e = InvalidHandle /\ h !! AnchoredImage.img a = None.
Proof.
  unfold AnchoredImage.size, Image.size. py_unfold.
  destruct (h !! AnchoredImage.img a) as [r|]; [discriminate|].
  intros [= <- <-]. auto.
Qed.

Lemma scale_returned (a a' : AnchoredImage.t) (factor : Q) (mp : option Q)
    (h h' : heap) :
  AnchoredImage.scale a factor mp h = Returned a' h' ->
  exists r r',
    h !! AnchoredImage.img a = Some r
    /\ a' = AnchoredImage.set_img a (length h)
    /\ h' = h ++ [r']
    /\ raster_size r' = (Num.py_int (inject_Z (width r) * factor),
                         Num.py_int (inject_Z (height r) * factor)).
Proof.
  destruct (h !! AnchoredImage.img a) as [r|] eqn:E.
  - rewrite (scale_unfold _ _ _ _ _ E).
    destruct (_ && _); [discriminate|].
    destruct (Image.resize _ _ _ h) as [i h1|e h1] eqn:R; [|discriminate].
    intros [= <- <-].
    apply resize_returned in R as (r0 & r' & E0 & -> & -> & S & _).
    exists r, r'. auto.
  - unfold AnchoredImage.scale. intros S. apply bind_returned in S as (sz & h1 & S & _).
    apply size_returned in S as (_ & r & S & _). congruence.
Qed.

Lemma scale_raised (a : AnchoredImage.t) (factor : Q) (mp : option Q)
    (h h' : heap) (e : exn) :
  AnchoredImage.scale a factor mp h = Raised e h' ->
  h' = h /\ (e = InvalidHandle \/ is_ValueError e = true).
Proof.
  destruct (h !! AnchoredImage.img a) as [r|] eqn:E.
  - rewrite (scale_unfold _ _ _ _ _ E).
    destruct (_ && _); [intros [= <- <-]; auto|].
    destruct (Image.resize _ _ _ h) as [i h1|e1 h1] eqn:R; [discriminate|].
    intros [= <- <-]. apply resize_raised in R as [-> [->| ->]]; auto.
  - unfold AnchoredImage.scale. intros S. apply bind_raised in S as [S|(sz & h1 & S & _)].
    + apply size_raised in S as (-> & -> & _). auto.
    + apply size_returned in S as (_ & r & S & _). congruence.
Qed.

Lemma get_anchor_absolute_at (a : AnchoredImage.t) (h : heap) (r : raster)
    (rx ry : Q) :
  h !! AnchoredImage.img a = Some r ->
  AnchoredImage.rel_anchor a = Some (rx, ry) ->
  AnchoredImage.get_anchor_absolute a h
  = Returned (rx * inject_Z (width r), ry * inject_Z (height r))%Q h.
Proof.
  intros E A. unfold AnchoredImage.get_anchor_absolute, AnchoredImage.get_rel_anchor.
  rewrite A. unfold mbind at 1, py_bind at 1, bind at 1, ret at 1.
  unfold mbind, py_bind, bind. now rewrite (size_at _ _ _ E).
Qed.

Lemma anchor_absolute_at (a : AnchoredImage.t) (h : heap) (r : raster)
    (rx ry : Q) :
  h !! AnchoredImage.img a = Some r ->
  AnchoredImage.rel_anchor a = Some (rx, ry) ->
  AnchoredImage.anchor_absolute a h
  = Returned (inject_Z (width r) * rx, inject_Z (height r) * ry)%Q h.
Proof.
  intros E A. unfold AnchoredImage.anchor_absolute, AnchoredImage.get_rel_anchor.
  rewrite A. unfold mbind at 1, py_bind at 1, bind at 1, ret at 1.
  unfold mbind, py_bind, bind. now rewrite (size_at _ _ _ E).
Qed.

Lemma get_anchor_absolute_returned (a : AnchoredImage.t) (h h' : heap) (p : Q * Q) :
  AnchoredImage.get_anchor_absolute a h = Returned p h' ->
  h' = h /\ exists r anc,
    h !! AnchoredImage.img a = Some r /\ AnchoredImage.rel_anchor a = Some anc.
Proof.
  unfold AnchoredImage.get_anchor_absolute, AnchoredImage.get_rel_anchor.
  destruct (AnchoredImage.rel_anchor a) as [[rx ry]|]; [|discriminate].
  intros S. apply bind_returned in S as ([x y] & h1 & [= <- <- <-] & S).
  apply bind_returned in S as ([w hh] & h2 & S & [= <- <-]).
  apply size_returned in S as (-> & r & S & _). eauto.
Qed.

Lemma get_anchor_absolute_raised (a : AnchoredImage.t) (h h' : heap) (e : exn) :
  AnchoredImage.get_anchor_absolute a h = Raised e h' ->
  h' = h /\ is_ValueError e = false.
Proof.
  unfold AnchoredImage.get_anchor_absolute, AnchoredImage.get_rel_anchor.
  destruct (AnchoredImage.rel_anchor a) as [[rx ry]|].
  - intros S. apply bind_raised in S as [[=]|([x y] & h1 & [= <- <- <-] & S)].
    apply bind_raised in S as [S|([w hh] & h2 & _ & [=])].
    apply size_raised in S as (-> & -> & _). auto.
  - intros [= <- <-]. auto.
Qed.

Lemma paste_aligned_at (a b : AnchoredImage.t) (h : heap) (r s : raster)
    (ax ay bx by' : Q) :
  h !! AnchoredImage.img a = Some r ->
  h !! AnchoredImage.img b = Some s ->
  AnchoredImage.rel_anchor a = Some (ax, ay) ->
  AnchoredImage.rel_anchor b = Some (bx, by') ->
  AnchoredImage.paste_aligned a b h
  = Returned tt
      (<[AnchoredImage.img a :=
           Raster (width r) (height r)
             (paste_pixels (raster_size r) (data r) (raster_size s) (data s)
                (Num.py_ceil (ax * inject_Z (width r) - bx * inject_Z (width s)),
                 Num.py_ceil (ay * inject_Z (height r) - by' * inject_Z (height s))))]> h).
Proof.
  intros E F A B. unfold AnchoredImage.paste_aligned.
  rewrite (bind_step _ _ _ _ _ (get_anchor_absolute_at _ _ _ _ _ E A)).
  rewrite (bind_step _ _ _ _ _ (get_anchor_absolute_at _ _ _ _ _ F B)).
  unfold AnchoredImage.paste. simpl. now apply paste_at.
Qed.

Lemma paste_aligned_returned (a b : AnchoredImage.t) (h h' : heap) :
  AnchoredImage.paste_aligned a b h = Returned tt h' ->
  exists r r',
    h !! AnchoredImage.img a = Some r
    /\ h' = <[AnchoredImage.img a := r']> h
    /\ raster_size r' = raster_size r.
Proof.
  unfold AnchoredImage.paste_aligned. intros S.
  apply bind_returned in S as ([ax ay] & h1 & S1 & S).
  apply get_anchor_absolute_returned in S1 as (-> & r & _ & E & _).
  apply bind_returned in S as ([bx by'] & h2 & S2 & S).
  apply get_anchor_absolute_returned in S2 as (-> & s & _ & F & _).
  unfold AnchoredImage.paste in S. simpl in S.
  apply paste_returned in S as (r0 & s0 & E0 & _ & ->).
  assert (r0 = r) as -> by congruence.
  eexists r, _. repeat split; eauto.
Qed.

Lemma paste_aligned_raised (a b : AnchoredImage.t) (h h' : heap) (e : exn) :
  AnchoredImage.paste_aligned a b h = Raised e h' ->
  h' = h /\ is_ValueError e = false.
Proof.
  unfold AnchoredImage.paste_aligned. intros S.
  apply bind_raised in S as [S|([ax ay] & h1 & S1 & S)].
  { now apply get_anchor_absolute_raised in S. }
  apply get_anchor_absolute_returned in S1 as (-> & _).
  apply bind_raised in S as [S|([bx by'] & h2 & S2 & S)].
  { now apply get_anchor_absolute_raised in S. }
  apply get_anchor_absolute_returned in S2 as (-> & _).
  unfold AnchoredImage.paste in S. simpl in S.
  apply paste_raised in S as (-> & ->). auto.
Qed.

Lemma deepcopy_at (a : AnchoredImage.t) (h : heap) (r : raster) (anc : Q * Q) :
  h !! AnchoredImage.img a = Some r ->
  AnchoredImage.rel_anchor a = Some anc ->
  AnchoredImage.__deepcopy__ a h
  = Returned {| AnchoredImage.img := length h;
                AnchoredImage.config := AnchoredImage._default_config;
                AnchoredImage.rel_anchor := Some anc |} (h ++ [r]).
Proof.
  intros E A. unfold AnchoredImage.__deepcopy__.
  rewrite (bind_step _ _ _ _ _ (copy_at _ _ _ E)).
  unfold AnchoredImage.get_rel_anchor. rewrite A. reflexivity.
Qed.

Lemma py_div_at (a b : Q) (h : heap) :
  ~ (b == 0)%Q -> py_div a b h = Returned (a / b)%Q h.
Proof. intros B. unfold py_div. now rewrite (is_zero_false _ B). Qed.

Lemma py_div_returned (a b q : Q) (h h' : heap) :
  py_div a b h = Returned q h' -> h' = h /\ q = (a / b)%Q /\ ~ (b == 0)%Q.
Proof.
  unfold py_div, Num.is_zero. destruct (Qeq_bool b 0) eqn:E; [discriminate|].
  intros [= <- <-]. repeat split. now apply Qeq_bool_neq.
Qed.

Lemma py_div_raised (a b : Q) (h h' : heap) (e : exn) :
  py_div a b h = Raised e h' -> h' = h /\ e = ZeroDivisionError.
Proof.
  unfold py_div. destruct (Num.is_zero b); [|discriminate].
  intros [= <- <-]. auto.
Qed.

Lemma _zoom_in_box_at (a : AnchoredImage.t) (h : heap) (r : raster)
    (anc : Q * Q) (factor : Q) :
  h !! AnchoredImage.img a = Some r ->
  AnchoredImage.rel_anchor a = Some anc ->
  ~ (factor == 0)%Q ->
  let '(ox, oy, ws, hs) := zoom_box r anc factor in
  AnchoredImage._zoom_in_box a factor true h
  = Returned
      (((inject_Z ox, inject_Z oy),
        (inject_Z ox + inject_Z ws, inject_Z oy + inject_Z hs)),
       (inject_Z ox, inject_Z oy,
        inject_Z ox + inject_Z ws, inject_Z oy + inject_Z hs))%Q h.
Proof.
  intros E A F. destruct anc as [rx ry]. unfold zoom_box. simpl.
  unfold AnchoredImage._zoom_in_box.
  rewrite (bind_step _ _ _ _ _ (size_at _ _ _ E)).
  rewrite (bind_step _ _ _ _ _ (py_div_at _ _ _ F)).
  rewrite (bind_step _ _ _ _ _ (py_div_at _ _ _ F)).
  unfold AnchoredImage.get_rel_anchor. rewrite A.
  unfold mbind at 1, py_bind at 1, bind at 1, ret at 1.
  rewrite (bind_step _ _ _ _ _ (py_div_at _ _ _ F)).
  reflexivity.
Qed.

Lemma round_sum (x y : Z) : Num.py_round (inject_Z x + inject_Z y) = x + y.
Proof. apply py_round_Z. now rewrite inject_Z_plus. Qed.

Lemma zoom_in_at (a : AnchoredImage.t) (h : heap) (r : raster)
    (anc : Q * Q) (factor : Q) :
  h !! AnchoredImage.img a = Some r ->
  AnchoredImage.rel_anchor a = Some anc ->
  ~ (factor == 0)%Q ->
  let '(ox, oy, ws, hs) := zoom_box r anc factor in
  0 <= ws -> 0 <= hs ->
  let c := Raster ws hs
             (crop_pixels (raster_size r) (data r) (ox, oy, ox + ws, oy + hs)) in
  AnchoredImage.zoom_in a factor h
  = match Image.resize (length h) (raster_size r)
            (AnchoredImage.resampler (AnchoredImage.config a)) (h ++ [c]) with
    | Returned i h' => Returned (AnchoredImage.set_img a i) h'
    | Raised e h' => Raised e h'
    end.
Proof.
  intros E A F.
  pose proof (_zoom_in_box_at a h r anc factor E A F) as B.
  destruct (zoom_box r anc factor) as [[[ox oy] ws] hs].
  intros Hw Hh c. unfold AnchoredImage.zoom_in.
  rewrite (bind_step _ _ _ _ _ B).
  rewrite (bind_step _ _ _ _ _ (size_at _ _ _ E)).
  pose proof (crop_at (AnchoredImage.img a) (inject_Z ox) (inject_Z oy)
                (inject_Z ox + inject_Z ws) (inject_Z oy + inject_Z hs) h r E) as C.
  cbv zeta in C. rewrite !py_round_inject, !round_sum in C.
  rewrite decide_False in C by lia.
  rewrite !Z.add_simpl_l in C.
  rewrite (bind_step _ _ _ _ _ C).
  fold c. unfold raster_size at 1.
  py_unfold. now destruct (Image.resize _ _ _ _).
Qed.

Lemma zoom_box_size_nonneg (r : raster) (anc : Q * Q) (factor : Q) :
  (0 < factor)%Q -> 0 <= width r -> 0 <= height r ->
  let '(_, _, ws, hs) := zoom_box r anc factor in 0 <= ws /\ 0 <= hs.
Proof.
  intros F W Hh. unfold zoom_box.
  assert (P : forall z : Z, 0 <= z -> (0 <= inject_Z z / factor)%Q).
  { intros z Hz. apply Qle_shift_div_l; [assumption|].
    rewrite Qmult_0_l. change 0%Q with (inject_Z 0). now rewrite <- Zle_Qle. }
  split; apply py_round_nonneg; auto.
Qed.

(** [zoom_in] by a positive factor on an image with both sides at least 1:
    it returns, the new image has the size of the old one, and the store
    grows by the crop and the new image. *)
Lemma zoom_in_ok (a : AnchoredImage.t) (h : heap) (r : raster)
    (anc : Q * Q) (factor : Q) :
  h !! AnchoredImage.img a = Some r ->
  AnchoredImage.rel_anchor a = Some anc ->
  (0 < factor)%Q -> 1 <= width r -> 1 <= height r ->
  exists c r',
    AnchoredImage.zoom_in a factor h
    = Returned (AnchoredImage.set_img a (S (length h))) (h ++ [c; r'])
    /\ raster_size r' = raster_size r.
Proof.
  intros E A F W Hh.
  assert (F0 : ~ (factor == 0)%Q).
  { intros Z. rewrite Z in F. now apply Qlt_irrefl in F. }
  pose proof (zoom_in_at a h r anc factor E A F0) as Z.
  pose proof (zoom_box_size_nonneg r anc factor F ltac:(lia) ltac:(lia)) as N.
  destruct (zoom_box r anc factor) as [[[ox oy] ws] hs].
  destruct N as [N1 N2]. specialize (Z N1 N2). cbv zeta in Z.
  set (c := Raster ws hs _) in Z.
  assert (L : (h ++ [c]) !! length h = Some c).
  { rewrite lookup_app_r by lia. now rewrite Nat.sub_diag. }
  rewrite (resize_at _ _ _ _ _ L) in Z.
  rewrite Z. rewrite length_app. simpl length.
  replace (length h + 1)%nat with (S (length h)) by lia.
  rewrite <- !app_assoc. simpl app.
  case_decide as D.
  - exists c, c. split; [reflexivity|assumption].
  - rewrite decide_False by (unfold raster_size; simpl; lia).
    eexists c, _. split; reflexivity.
Qed.

Lemma crop_returned (l : loc) (box : box4 Q) (h h' : heap) (i : loc) :
  Image.crop l box h = Returned i h' ->
  exists c, i = length h /\ h' = h ++ [c].
Proof.
  destruct box as [[[x0 y0] x1] y1].
  destruct (h !! l) as [r|] eqn:E.
  - rewrite (crop_at _ _ _ _ _ _ _ E). case_decide; [discriminate|].
    intros [= <- <-]. eauto.
  - unfold Image.crop. py_unfold. now rewrite E.
Qed.

Lemma crop_raised (l : loc) (box : box4 Q) (h h' : heap) (e : exn) :
  Image.crop l box h = Raised e h' -> h' = h.
Proof.
  destruct box as [[[x0 y0] x1] y1].
  destruct (h !! l) as [r|] eqn:E.
  - rewrite (crop_at _ _ _ _ _ _ _ E). case_decide; [|discriminate].
    now intros [= <- <-].
  - unfold Image.crop. py_unfold. rewrite E. now intros [= <- <-].
Qed.

Lemma _zoom_in_box_final (a : AnchoredImage.t) (factor : Q) (rounding : bool)
    (h : heap) :
  final_heap (AnchoredImage._zoom_in_box a factor rounding h) = h.
Proof.
  unfold AnchoredImage._zoom_in_box, AnchoredImage.size, Image.size,
    AnchoredImage.get_rel_anchor, py_div.
  py_unfold.
  destruct (h !! AnchoredImage.img a); [|reflexivity]. simpl.
  destruct (Num.is_zero factor); [reflexivity|].
  destruct (AnchoredImage.rel_anchor a) as [[rx ry]|]; reflexivity.
Qed.

Lemma zoom_in_returned (a a' : AnchoredImage.t) (factor : Q) (h h' : heap) :
  AnchoredImage.zoom_in a factor h = Returned a' h' ->
  exists r c r',
    h !! AnchoredImage.img a = Some r
    /\ a' = AnchoredImage.set_img a (S (length h))
    /\ h' = h ++ [c; r']
    /\ raster_size r' = raster_size r.
Proof.
  unfold AnchoredImage.zoom_in. intros S.
  apply bind_returned in S as ([cs box] & h1 & B & S).
  pose proof (_zoom_in_box_final a factor true h) as Fh. rewrite B in Fh.
  simpl in Fh. subst h1.
  apply bind_returned in S as ([w hh] & h1 & Sz & S).
  apply size_returned in Sz as (-> & r & E & [= -> ->]).
  apply bind_returned in S as (ci & h1 & C & S).
  apply crop_returned in C as (c & -> & ->).
  apply bind_returned in S as (i & h2 & R & [= <- <-]).
  apply resize_returned in R as (c0 & r' & _ & -> & -> & Sr & _).
  exists r, c, r'. rewrite length_app, <- app_assoc. simpl.
  replace (length h + 1)%nat with (S (length h)) by lia. auto.
Qed.

Lemma zoom_in_raised (a : AnchoredImage.t) (factor : Q) (h h' : heap) (e : exn) :
  AnchoredImage.zoom_in a factor h = Raised e h' -> h `prefix_of` h'.
Proof.
  unfold AnchoredImage.zoom_in. intros S.
  pose proof (_zoom_in_box_final a factor true h) as Fh.
  apply bind_raised in S as [B|([cs box] & h1 & B & S)];
    rewrite B in Fh; simpl in Fh; subst; [reflexivity|].
  apply bind_raised in S as [Sz|([w hh] & h1 & Sz & S)].
  { apply size_raised in Sz as (-> & _). reflexivity. }
  apply size_returned in Sz as (-> & _).
  apply bind_raised in S as [C|(ci & h1 & C & S)].
  { apply crop_raised in C as ->. reflexivity. }
  apply crop_returned in C as (c & -> & ->).
  apply bind_raised in S as [R|(i & h2 & _ & [=])].
  apply resize_raised in R as (-> & _). now apply prefix_app_r.
Qed.

(** A transform of one image leaves every other image of the store as it
    was, whether it returns or raises. *)
Lemma apply_frame (o : transform) (x : AnchoredImage.t) (h : heap) (l : loc)
    (v : raster) :
  h !! l = Some v -> l <> AnchoredImage.img x ->
  final_heap (apply o x h) !! l = Some v.
Proof.
  intros L N. destruct o as [factor mp|factor|other]; simpl.
  - destruct (AnchoredImage.scale x factor mp h) as [a' h'|e h'] eqn:S; simpl.
    + apply scale_returned in S as (r & r' & _ & _ & -> & _).
      now apply lookup_app_l_Some.
    + now apply scale_raised in S as (-> & _).
  - destruct (AnchoredImage.zoom_in x factor h) as [a' h'|e h'] eqn:S; simpl.
    + apply zoom_in_returned in S as (r & c & r' & _ & _ & -> & _).
      now apply lookup_app_l_Some.
    + apply zoom_in_raised in S. eapply prefix_lookup_Some; eauto.
  - py_unfold.
    destruct (AnchoredImage.paste_aligned x other h) as [[] h'|e h'] eqn:S; simpl.
    + apply paste_aligned_returned in S as (r & r' & _ & -> & _).
      simpl. rewrite list_lookup_insert_ne; auto.
    + now apply paste_aligned_raised in S as (-> & _).
Qed.

(** C3.  After a [scale], a [zoom_in] or a [paste_aligned] that returned,
    [rel_anchor] is what it was, and [anchor_absolute()] is the relative
    anchor times the size the image has now, component by component. *)
Theorem anchor_invariant (o : transform) (a a' : AnchoredImage.t) (h h' : heap) :
  apply o a h = Returned a' h' ->
  AnchoredImage.rel_anchor a' = AnchoredImage.rel_anchor a
  /\ exists w hh,
       AnchoredImage.size a' h' = Returned (w, hh) h'
       /\ forall rx ry,
            AnchoredImage.rel_anchor a = Some (rx, ry) ->
            AnchoredImage.anchor_absolute a' h'
            = Returned (inject_Z w * rx, inject_Z hh * ry)%Q h'.
Proof.
  intros S.
  assert (exists r', h' !! AnchoredImage.img a' = Some r'
                     /\ AnchoredImage.rel_anchor a' = AnchoredImage.rel_anchor a)
    as (r' & E & A).
  { destruct o as [factor mp|factor|other]; simpl in S.
    - apply scale_returned in S as (r & r' & _ & -> & -> & _).
      exists r'. split; [|reflexivity]. simpl.
      rewrite lookup_app_r by lia. now rewrite Nat.sub_diag.
    - apply zoom_in_returned in S as (r & c & r' & _ & -> & -> & _).
      exists r'. split; [|reflexivity]. simpl.
      rewrite lookup_app_r by lia.
      now replace (S (length h) - length h)%nat with 1%nat by lia.
    - apply bind_returned in S as ([] & h1 & S & [= <- <-]).
      apply paste_aligned_returned in S as (r & r' & E & -> & _).
      exists r'. split; [|reflexivity].
      apply list_lookup_insert_eq. now apply lookup_lt_Some in E. }
  split; [assumption|].
  exists (width r'), (height r'). split; [now apply size_at|].
  intros rx ry R. apply anchor_absolute_at; congruence.
Qed.

(** ** [zoom_in(1)] *)




(** ** [__deepcopy__] *)

(** C9.  [copy.deepcopy(a)] returns a new [AnchoredImage]: its image is a
    new one of the store with the size and pixels of [a]'s, its relative
    anchor is [a]'s, and its [config] is [_default_config] ([max_pixels] 8e8,
    bicubic) whatever [a]'s is.  A transform of the copy, returning or
    raising, leaves the image of [a] as it was, and a transform of [a]
    leaves the image of the copy as it was. *)
Theorem deepcopy_independent (a : AnchoredImage.t) (h : heap) (r : raster)
    (anc : Q * Q) :
  h !! AnchoredImage.img a = Some r ->
  AnchoredImage.rel_anchor a = Some anc ->
  exists a' h',
    AnchoredImage.__deepcopy__ a h = Returned a' h'
    /\ AnchoredImage.img a' <> AnchoredImage.img a
    /\ h' !! AnchoredImage.img a' = Some r
    /\ h' !! AnchoredImage.img a = Some r
    /\ AnchoredImage.rel_anchor a' = Some anc
    /\ AnchoredImage.config a' = AnchoredImage._default_config
    /\ AnchoredImage.max_pixels (AnchoredImage.config a') = (800000000 # 1)%Q
    /\ AnchoredImage.resampler (AnchoredImage.config a') = BICUBIC
    /\ (forall o, final_heap (apply o a' h') !! AnchoredImage.img a = Some r)
    /\ (forall o, final_heap (apply o a h') !! AnchoredImage.img a' = Some r).
Proof.
  intros E A. eexists _, _. split; [apply (deepcopy_at a h r anc E A)|]. simpl.
  pose proof (lookup_lt_Some _ _ _ E) as Lt.
  assert (L1 : (h ++ [r]) !! length h = Some r).
  { rewrite lookup_app_r by lia. now rewrite Nat.sub_diag. }
  assert (L2 : (h ++ [r]) !! AnchoredImage.img a = Some r)
    by now apply lookup_app_l_Some.
  repeat split; try assumption; try lia.
  - intros o. apply apply_frame; [assumption|simpl; lia].
  - intros o. apply apply_frame; [assumption|simpl; lia].
Qed.

(** ** [set_anchor_absolute], [load_image], [wait_for_frames] *)

(** A point right of or below the image: the call returns, its result is
    the [ValueError] object, and the object is as it was. *)
Lemma set_anchor_absolute_beyond (a : AnchoredImage.t) (h : heap) (r : raster)
    (x y : Q) :
  h !! AnchoredImage.img a = Some r ->
  (inject_Z (width r) < x \/ inject_Z (height r) < y)%Q ->
  AnchoredImage.set_anchor_absolute a (x, y) h
  = Returned (Some (ValueError (AnchorOutOfBounds (x, y) (width r) (height r))), a) h.
Proof.
  intros E B. unfold AnchoredImage.set_anchor_absolute.
  rewrite (bind_step _ _ _ _ _ (size_at _ _ _ E)).
  assert (C : Num.Qgtb x (inject_Z (width r)) || Num.Qgtb y (inject_Z (height r)) = true).
  { apply orb_true_iff. rewrite !Qgtb_lt. tauto. }
  now rewrite C.
Qed.


(** C10.  [load_image] on a plain Pillow image raises [NameError], and so
    does the constructor of [Gifception]: no [base_image] is stored. *)
Theorem load_image_plain (i : loc) (cfg : option Gifception.config_t)
    (prm : option params_t) (h : heap) :
  Gifception.load_image (AnchoredImage.PILImage i) h = Raised (NameError "imge") h
  /\ Gifception.__init__ (AnchoredImage.PILImage i) cfg prm h
     = Raised (NameError "imge") h.
Proof. split; reflexivity. Qed.

(** The accepted kind of input: the object is stored as it is. *)
Lemma load_image_anchored (a : AnchoredImage.t) (h : heap) :
  Gifception.load_image (AnchoredImage.Anchored a) h = Returned a h.
Proof. reflexivity. Qed.

(** C5.  On an object that [__init__] has just made, [wait_for_frames]
    raises [AttributeError]: the attribute [qin] that its first line reads
    was never assigned.  It does not raise [GifceptionException]. *)
Theorem wait_before_start (a : AnchoredImage.t) (cfg : option Gifception.config_t)
    (prm : option params_t) (h : heap) (sched : list nat)
    (td : Gifception.tempdir) :
  exists g,
    Gifception.__init__ (AnchoredImage.Anchored a) cfg prm h = Returned g h
    /\ Gifception.wait_for_frames sched g td
       = Gifception.Raises (AttributeError "Gifception" "qin")
    /\ forall msg, Gifception.wait_for_frames sched g td
                   <> Gifception.Raises (GifceptionException msg).
Proof.
  eexists. split; [reflexivity|]. split; [reflexivity|]. discriminate.
Qed.

(** ** [make_frame] *)

Lemma scale_raised_valid (a : AnchoredImage.t) (factor : Q) (mp : option Q)
    (h h' : heap) (e : exn) (r : raster) :
  h !! AnchoredImage.img a = Some r ->
  AnchoredImage.scale a factor mp h = Raised e h' ->
  h' = h /\ is_ValueError e = true.
Proof.
  intros E. rewrite (scale_unfold _ _ _ _ _ E).
  destruct (_ && _); [intros [= <- <-]; auto|].
  rewrite (resize_at _ _ _ _ _ E).
  repeat case_decide; intros [= <- <-] || discriminate; auto.
Qed.

Lemma lookup_snoc {A} (l : list A) (x : A) : (l ++ [x]) !! length l = Some x.
Proof. rewrite lookup_app_r by lia. now rewrite Nat.sub_diag. Qed.

(** The optional paste of [make_frame]: it returns whether the [scale] in
    it raises or not, the frame keeps its size, and the other images of the
    store stay as they are. *)
Lemma quality_paste_ok (nb frame : AnchoredImage.t) (mz inner : Q) (g : heap)
    (r rf : raster) (anc ancf : Q * Q) :
  g !! AnchoredImage.img nb = Some r ->
  AnchoredImage.rel_anchor nb = Some anc ->
  g !! AnchoredImage.img frame = Some rf ->
  AnchoredImage.rel_anchor frame = Some ancf ->
  ~ (inner == 0)%Q ->
  exists rf' t,
    try_except_ValueError
      (smaller ← AnchoredImage.__deepcopy__ nb;
       f ← py_div mz inner;
       smaller ← AnchoredImage.scale smaller f None;
       AnchoredImage.paste_aligned frame smaller)
      (ret tt) g
    = Returned tt (<[AnchoredImage.img frame := rf']> (g ++ t))
    /\ raster_size rf' = raster_size rf.
Proof.
  intros E A Ef Af I. unfold try_except_ValueError.
  rewrite (bind_step _ _ _ _ _ (deepcopy_at _ _ _ _ E A)).
  rewrite (bind_step _ _ _ _ _ (py_div_at _ _ _ I)).
  set (smaller := {| AnchoredImage.img := length g |}).
  assert (Es : (g ++ [r]) !! AnchoredImage.img smaller = Some r)
    by apply lookup_snoc.
  destruct (AnchoredImage.scale smaller (mz / inner) None (g ++ [r]))
    as [s' g2|e g2] eqn:S.
  - rewrite (bind_step _ _ _ _ _ S).
    apply scale_returned in S as (r0 & rs & _ & -> & -> & _).
    destruct anc as [bx by'], ancf as [ax ay].
    erewrite paste_aligned_at; eauto.
    + rewrite <- app_assoc. eexists _, _. split; reflexivity.
    + rewrite <- app_assoc. now apply lookup_app_l_Some.
    + simpl. apply lookup_snoc.
  - rewrite (bind_fail _ _ _ _ _ S).
    apply (scale_raised_valid _ _ _ _ _ _ _ Es) in S as (-> & ->).
    exists rf, [r]. split; [|reflexivity]. unfold ret. f_equal.
    symmetry. apply list_insert_id. now apply lookup_app_l_Some.
Qed.

Lemma Qgtb_false_le (a b : Q) : (a <= b)%Q -> Num.Qgtb a b = false.
Proof. apply Qgtb_le. Qed.

(** A frame of a renderable animation: [make_frame] returns the file named
    after the frame number, of the size of the frames, and the store of the
    worker keeps what it had. *)
Lemma make_frame_ok (fw : FrameWorker.t) (nframe : Z) (h : heap) (r : raster)
    (anc : Q * Q) :
  h !! AnchoredImage.img (FrameWorker.nested_base fw) = Some r ->
  AnchoredImage.rel_anchor (FrameWorker.nested_base fw) = Some anc ->
  renderable (FrameWorker.params fw) r ->
  exists r' t,
    FrameWorker.make_frame fw nframe h
    = Returned (frame_name nframe, r') (h ++ t)
    /\ raster_size r' = frame_size (FrameWorker.params fw) r.
Proof.
  intros E A (W & Hh & Nf & Is & Ds & Px & Sz).
  set (p := FrameWorker.params fw) in *.
  set (nb := FrameWorker.nested_base fw) in *.
  unfold FrameWorker.make_frame. fold p nb.
  assert (N1 : ~ (inject_Z (num_frames p - 1) == 0)%Q).
  { unfold Qeq. simpl. lia. }
  rewrite (bind_step _ _ _ _ _ (py_div_at _ _ _ N1)).
  set (mz := Num.py_pow_int _ _).
  assert (Mz : (0 < mz)%Q).
  { unfold mz, Num.py_pow_int. apply Qpower_0_lt. now apply fpow_pos. }
  rewrite (bind_step _ _ _ _ _ (deepcopy_at _ _ _ _ E A)).
  set (frame := {| AnchoredImage.img := length h |}).
  destruct (zoom_in_ok frame (h ++ [r]) r anc mz (lookup_snoc h r) eq_refl Mz W Hh)
    as (c & r1 & Z & S1).
  rewrite (bind_step _ _ _ _ _ Z).
  set (frame' := AnchoredImage.set_img frame _).
  set (h2 := (h ++ [r]) ++ [c; r1]).
  assert (Ef : h2 !! AnchoredImage.img frame' = Some r1).
  { unfold h2, frame'. simpl.
    rewrite lookup_app_r by lia.
    now replace (S (length (h ++ [r])) - length (h ++ [r]))%nat with 1%nat by lia. }
  assert (En : h2 !! AnchoredImage.img nb = Some r).
  { unfold h2. now repeat apply lookup_app_l_Some. }
  assert (I0 : ~ (inner_scale p == 0)%Q).
  { intros Q0. rewrite Q0 in Is. now apply Qlt_irrefl in Is. }
  assert (exists rf' t,
            (if paste_within p
             then try_except_ValueError
                    (smaller ← AnchoredImage.__deepcopy__ nb;
                     f ← py_div mz (inner_scale p);
                     smaller ← AnchoredImage.scale smaller f None;
                     AnchoredImage.paste_aligned frame' smaller)
                    (ret tt)
             else ret tt) h2
            = Returned tt (<[AnchoredImage.img frame' := rf']> (h2 ++ t))
            /\ raster_size rf' = raster_size r1) as (rf' & t & Q & Sf).
  { destruct (paste_within p).
    - now apply (quality_paste_ok nb frame' mz _ h2 r r1 anc anc).
    - exists r1, []. split; [|reflexivity]. unfold ret. f_equal.
      rewrite app_nil_r. symmetry. now apply list_insert_id. }
  rewrite (bind_step _ _ _ _ _ Q).
  rewrite (bind_step _ _ _ _ _ (py_div_at _ _ _ Ds)).
  set (h3 := <[AnchoredImage.img frame' := rf']> (h2 ++ t)).
  assert (E3 : h3 !! AnchoredImage.img frame' = Some rf').
  { apply list_lookup_insert_eq. rewrite length_app.
    apply lookup_lt_Some in Ef. lia. }
  assert (P3 : exists t3, h3 = h ++ t3).
  { unfold h3, h2. rewrite <- !app_assoc.
    rewrite insert_app_r_alt by (unfold frame'; simpl; rewrite length_app; lia).
    eauto. }
  destruct P3 as (t3 & P3).
  assert (Wf : width rf' = width r /\ height rf' = height r).
  { rewrite S1 in Sf. unfold raster_size in Sf. now inversion Sf. }
  destruct Wf as [Wf Hf].
  pose proof (scale_unfold frame' h3 rf' (1 / downscale p) None E3) as U.
  cbv zeta in U. rewrite Wf, Hf in U.
  change (AnchoredImage.max_pixels (AnchoredImage.config frame'))
    with (800000000 # 1)%Q in U.
  rewrite (Qgtb_false_le _ _ Px) in U. simpl andb in U. cbv iota in U.
  rewrite (resize_at _ _ _ _ _ E3) in U.
  fold (frame_size p r) in U.
  assert (exists r', AnchoredImage.scale frame' (1 / downscale p) None h3
                     = Returned (AnchoredImage.set_img frame' (length h3)) (h3 ++ [r'])
                     /\ raster_size r' = frame_size p r) as (r' & Sc & Sr).
  { rewrite U. case_decide as D.
    - exists rf'. split; [reflexivity|assumption].
    - rewrite decide_False.
      + eexists. split; reflexivity.
      + destruct Sz as [Sz|Sz]; [|lia].
        exfalso. apply D. rewrite Sz. unfold raster_size. now rewrite Wf, Hf. }
  rewrite (bind_step _ _ _ _ _ Sc).
  unfold mbind, py_bind, bind, read. simpl AnchoredImage.img.
  rewrite lookup_snoc. unfold mret, py_ret, ret.
  exists r', (t3 ++ [r']). split; [|assumption].
  now rewrite P3, <- app_assoc.
Qed.

(** ** Frame file names *)

Lemma append_cons (c : ascii) (s t : string) : String c s +:+ t = String c (s +:+ t).
Proof. reflexivity. Qed.

Lemma append_nil (t : string) : "" +:+ t = t.
Proof. reflexivity. Qed.

Lemma append_assoc (s1 s2 s3 : string) : (s1 +:+ s2) +:+ s3 = s1 +:+ s2 +:+ s3.
Proof.
  induction s1 as [|c s1 IH]; [reflexivity|].
  now rewrite !append_cons, IH.
Qed.

Lemma length_snoc (D : string) (c : ascii) :
  String.length (D +:+ String c "") = S (String.length D).
Proof.
  induction D as [|d D IH]; [reflexivity|].
  rewrite append_cons. simpl. now rewrite IH.
Qed.

Lemma digit_char_spec (d : Z) :
  0 <= d < 10 ->
  is_digit (digit_char d) = true /\ digit_val (digit_char d) = d.
Proof.
  intros Hd. unfold is_digit, digit_val, digit_char.
  rewrite nat_ascii_embedding by lia.
  split; [|lia].
  apply andb_true_iff. split; apply Nat.leb_le; lia.
Qed.

Lemma parse_digits_cons (c : ascii) (s : string) (a : Z) :
  is_digit c = true ->
  parse_digits (String c s) a = parse_digits s (10 * a + digit_val c).
Proof. intros E. simpl. now rewrite E. Qed.

(** With enough fuel, [digits_aux] puts the digits of [n] in front of
    [acc], and [parse_digits] reads [n] back from them. *)
Lemma digits_aux_spec (fuel : nat) :
  forall (n : Z) (acc : string),
    0 <= n < 10 ^ Z.of_nat fuel ->
    exists D : string,
      digits_aux fuel n acc = D +:+ acc
      /\ forall (a : Z) (rest : string),
           parse_digits (D +:+ rest) a
           = parse_digits rest (a * 10 ^ Z.of_nat (String.length D) + n).
Proof.
  induction fuel as [|fuel IH]; intros n acc Hn.
  - exists ""%string. split; [reflexivity|]. intros a rest.
    rewrite append_nil. f_equal. change (String.length "") with 0%nat.
    change (Z.of_nat 0) with 0 in *. rewrite Z.pow_0_r in *. lia.
  - simpl digits_aux.
    assert (Hm : 0 <= n mod 10 < 10) by (apply Z.mod_pos_bound; lia).
    destruct (digit_char_spec _ Hm) as [Dg Dv].
    destruct (Z.eqb_spec (n / 10) 0) as [Q0|Q0].
    + exists (String (digit_char (n mod 10)) ""). split; [reflexivity|].
      intros a rest. rewrite append_cons, append_nil.
      rewrite (parse_digits_cons _ _ _ Dg), Dv. f_equal.
      change (String.length (String (digit_char (n mod 10)) "")) with 1%nat.
      change (10 ^ Z.of_nat 1) with 10.
      pose proof (Z.div_mod n 10 ltac:(lia)). lia.
    + assert (Hq : 0 <= n / 10 < 10 ^ Z.of_nat fuel).
      { split; [apply Z.div_pos; lia|].
        apply Z.div_lt_upper_bound; [lia|].
        replace (Z.of_nat (S fuel)) with (Z.succ (Z.of_nat fuel)) in Hn by lia.
        rewrite Z.pow_succ_r in Hn by lia. lia. }
      destruct (IH (n / 10) (String (digit_char (n mod 10)) acc) Hq)
        as (D & ED & PD).
      exists (D +:+ String (digit_char (n mod 10)) ""). split.
      * rewrite ED, append_assoc. reflexivity.
      * intros a rest. rewrite append_assoc, PD.
        rewrite append_cons, append_nil.
        rewrite (parse_digits_cons _ _ _ Dg), Dv. f_equal. rewrite length_snoc.
        replace (Z.of_nat (S (String.length D)))
          with (Z.succ (Z.of_nat (String.length D))) by lia.
        rewrite Z.pow_succ_r by lia.
        pose proof (Z.div_mod n 10 ltac:(lia)). lia.
Qed.

Lemma digits_fuel (n : Z) : 0 <= n -> n < 10 ^ Z.of_nat (S (Z.to_nat (Z.log2 n))).
Proof.
  intros Hn. destruct (Z.eq_dec n 0) as [->|N0]; [reflexivity|].
  pose proof (Z.log2_nonneg n) as L0.
  destruct (Z.log2_spec n ltac:(lia)) as [_ Hu].
  replace (Z.of_nat (S (Z.to_nat (Z.log2 n)))) with (Z.succ (Z.log2 n)) by lia.
  eapply Z.lt_le_trans; [exact Hu|].
  apply Z.pow_le_mono_l. lia.
Qed.

Lemma parse_zeros (k : nat) (rest : string) :
  parse_digits (zeros k +:+ rest) 0 = parse_digits rest 0.
Proof.
  induction k as [|k IH]; [reflexivity|].
  simpl zeros. rewrite append_cons.
  rewrite parse_digits_cons by reflexivity. exact IH.
Qed.

(** The frame number is read back from the file name. *)
Lemma frame_number_name (n : Z) : 0 <= n -> frame_number (frame_name n) = n.
Proof.
  intros Hn. unfold frame_number, frame_name, format_05d.
  destruct (Z.ltb_spec n 0) as [?|_]; [lia|].
  match goal with
  | |- parse_digits (string_drop 6 ("frame-" +:+ ?x)) 0 = _ =>
      change (string_drop 6 ("frame-" +:+ x)) with x
  end.
  unfold zfill, digits.
  destruct (digits_aux_spec _ n "" (conj Hn (digits_fuel n Hn))) as (D & -> & PD).
  rewrite !append_assoc, parse_zeros, PD, append_nil.
  match goal with
  | |- parse_digits ".png" ?a = _ => change (parse_digits ".png" a) with a
  end.
  lia.
Qed.

Lemma frame_name_inj (n m : Z) :
  0 <= n -> 0 <= m -> frame_name n = frame_name m -> n = m.
Proof.
  intros Hn Hm E.
  rewrite <- (frame_number_name n Hn), <- (frame_number_name m Hm).
  now rewrite E.
Qed.

Lemma length_append (s1 s2 : string) :
  String.length (s1 +:+ s2) = (String.length s1 + String.length s2)%nat.
Proof.
  induction s1 as [|c s1 IH]; [reflexivity|].
  rewrite append_cons. simpl. now rewrite IH.
Qed.

Lemma length_zeros (k : nat) : String.length (zeros k) = k.
Proof. induction k as [|k IH]; [reflexivity|]. simpl. now rewrite IH. Qed.

Lemma digits_aux_length (fuel : nat) :
  forall (n : Z) (acc : string) (k : nat),
    0 <= n < 10 ^ Z.of_nat k -> (1 <= k)%nat ->
    (String.length (digits_aux fuel n acc) <= String.length acc + k)%nat.
Proof.
  induction fuel as [|fuel IH]; intros n acc k Hn Hk; [simpl; lia|].
  simpl digits_aux. destruct (Z.eqb_spec (n / 10) 0) as [Q0|Q0]; [simpl; lia|].
  destruct k as [|[|k]]; [lia| |].
  - exfalso. apply Q0. apply Z.div_small. simpl in Hn. lia.
  - assert (Hq : 0 <= n / 10 < 10 ^ Z.of_nat (S k)).
    { split; [apply Z.div_pos; lia|].
      apply Z.div_lt_upper_bound; [lia|].
      replace (Z.of_nat (S (S k))) with (Z.succ (Z.of_nat (S k))) in Hn by lia.
      rewrite Z.pow_succ_r in Hn by lia. lia. }
    specialize (IH (n / 10) (String (digit_char (n mod 10)) acc) (S k) Hq
                  ltac:(lia)).
    simpl String.length in IH. lia.
Qed.

(** Below 100000 the number takes exactly five characters. *)
Lemma format_05d_length (n : Z) :
  0 <= n < 100000 -> String.length (format_05d n) = 5%nat.
Proof.
  intros Hn. unfold format_05d.
  destruct (Z.ltb_spec n 0) as [?|_]; [lia|].
  unfold zfill. rewrite length_append, length_zeros.
  pose proof (digits_aux_length (S (Z.to_nat (Z.log2 n))) n "" 5 Hn ltac:(lia)) as L.
  unfold digits. change (String.length "") with 0%nat in L. lia.
Qed.

Lemma NoDup_frame_names (n : Z) : NoDup (frame_names n).
Proof.
  unfold frame_names. apply NoDup_fmap_2_strong; [|apply NoDup_seqZ].
  intros x y Hx Hy. apply elem_of_seqZ in Hx, Hy.
  apply frame_name_inj; lia.
Qed.

Lemma length_frame_names (n : Z) : length (frame_names n) = Z.to_nat n.
Proof. unfold frame_names. now rewrite length_fmap, length_seqZ. Qed.

(** ** The run of the workers *)

Lemma start_returned (fuel : nat) (g g1 : Gifception.t) (h h1 : heap)
    (td : Gifception.tempdir) :
  Gifception.start_making_frames fuel g h = Returned (Some (td, g1)) h1 ->
  exists nb,
    Gifception.nested_base g1 = Some nb
    /\ td = {| Gifception.name := "gifception_"; Gifception.contents := ∅ |}
    /\ Gifception.params g1 = Gifception.params g
    /\ Gifception.config g1 = Gifception.config g
    /\ Gifception.qin g1
       = Some (Some ((Some <$> seqZ 1 (num_frames (Gifception.params g)))
                     ++ replicate
                          (Z.to_nat (Gifception.num_processes (Gifception.config g)))
                          None))
    /\ Gifception.qout g1 = Some (Some [])
    /\ Gifception.frame_workers g1
       = (fun pn => {| FrameWorker.nested_base := nb;
                       FrameWorker.params := Gifception.params g;
                       FrameWorker.num := pn;
                       FrameWorker.proc := FrameWorker.Running h1 |})
           <$> seqZ 1 (Gifception.num_processes (Gifception.config g)).
Proof.
  unfold Gifception.start_making_frames.
  destruct (negb _); [discriminate|].
  intros S. apply bind_returned in S as (nbo & h2 & _ & S).
  destruct nbo as [nb|]; [|discriminate].
  destruct (negb _); [discriminate|].
  injection S as <- <- <-. exists nb. repeat split.
Qed.

Lemma num_alive_insert (ws : list FrameWorker.t) (i : nat) (fw fw' : FrameWorker.t) :
  ws !! i = Some fw ->
  (num_alive (<[i := fw']> ws) + Nat.b2n (FrameWorker.alive fw)
   = num_alive ws + Nat.b2n (FrameWorker.alive fw'))%nat.
Proof.
  unfold num_alive. revert i. induction ws as [|w ws IH]; intros [|i] E;
    try discriminate.
  - injection E as ->. simpl.
    destruct (FrameWorker.alive fw), (FrameWorker.alive fw'); simpl; lia.
  - simpl in E. specialize (IH i E). simpl.
    destruct (FrameWorker.alive w); simpl; lia.
Qed.

Lemma num_alive_pos (ws : list FrameWorker.t) (i : nat) (fw : FrameWorker.t) :
  ws !! i = Some fw -> FrameWorker.alive fw = true -> (1 <= num_alive ws)%nat.
Proof.
  unfold num_alive. revert i. induction ws as [|w ws IH]; intros [|i] E A;
    try discriminate.
  - injection E as ->. simpl. rewrite A. simpl. lia.
  - simpl in E. specialize (IH i E A). simpl.
    destruct (FrameWorker.alive w); simpl; lia.
Qed.

Lemma num_alive_zero (ws : list FrameWorker.t) :
  existsb FrameWorker.alive ws = false <-> num_alive ws = 0%nat.
Proof.
  unfold num_alive. induction ws as [|w ws IH]; simpl; [tauto|].
  destruct (FrameWorker.alive w); simpl; [split; discriminate|exact IH].
Qed.

Lemma num_alive_init (nb : AnchoredImage.t) (p : params_t) (h1 : heap) (l : list Z) :
  num_alive ((fun pn => {| FrameWorker.nested_base := nb;
                           FrameWorker.params := p;
                           FrameWorker.num := pn;
                           FrameWorker.proc := FrameWorker.Running h1 |}) <$> l)
  = length l.
Proof.
  induction l as [|x l IH]; [reflexivity|].
  rewrite fmap_cons. unfold num_alive in *. simpl List.filter. simpl length.
  now rewrite IH.
Qed.

(** The state that [start_making_frames] leaves is the first of the run. *)
Lemma pool_inv_start (fuel : nat) (g g1 : Gifception.t) (h h1 : heap)
    (td : Gifception.tempdir) (nb : AnchoredImage.t) (r : raster) (nf np : nat) :
  Gifception.start_making_frames fuel g h = Returned (Some (td, g1)) h1 ->
  num_frames (Gifception.params g) = Z.of_nat nf ->
  Gifception.num_processes (Gifception.config g) = Z.of_nat np ->
  Gifception.nested_base g1 = Some nb ->
  h1 !! AnchoredImage.img nb = Some r ->
  pool_inv nb (Gifception.params g) r nf np 0 0 g1 td.
Proof.
  intros S Nf Np Nb E.
  apply start_returned in S as (nb' & Nb' & -> & Pr & Cf & Qi & Qo & Ws).
  assert (nb' = nb) as -> by congruence.
  rewrite Nf in Qi. rewrite Np in Qi, Ws. rewrite Nat2Z.id in Qi.
  split; try assumption; try lia.
  - now rewrite Cf.
  - now rewrite Qi, Nat.sub_0_r, Nat.sub_0_r.
  - rewrite Ws, length_fmap, length_seqZ. lia.
  - rewrite Ws. apply Forall_fmap, Forall_forall. intros pn _.
    repeat split. exact E.
  - rewrite Ws, num_alive_init, length_seqZ. lia.
  - change (frame_names (Z.of_nat 0)) with (@nil string). simpl.
    now rewrite dom_empty_L.
  - simpl. apply map_Forall_empty.
Qed.

Lemma frame_names_S (j : nat) :
  frame_names (Z.of_nat (S j))
  = frame_names (Z.of_nat j) ++ [frame_name (1 + Z.of_nat j)].
Proof. unfold frame_names. now rewrite seqZ_S, fmap_app. Qed.

(** A turn of a worker takes the run from one state to the next: a frame
    more is made, or, when every frame is made, a worker more has ended. *)
Lemma turn_step (nb : AnchoredImage.t) (p : params_t) (r : raster) (anc : Q * Q)
    (nf np j e : nat) (g g' : Gifception.t) (td td' : Gifception.tempdir)
    (i : nat) :
  pool_inv nb p r nf np j e g td ->
  AnchoredImage.rel_anchor nb = Some anc ->
  renderable p r ->
  Gifception.turn i g td = Some (g', td') ->
  ((j < nf)%nat /\ pool_inv nb p r nf np (S j) e g' td')
  \/ (j = nf /\ (e < np)%nat /\ pool_inv nb p r nf np j (S e) g' td').
Proof.
  intros [Hj He Hje Hp Hnf Hnp Hqi Hqo Hlen Hws Hal Hdom Hsz] A R T.
  unfold Gifception.turn in T. rewrite Hqi, Hqo in T.
  destruct (Gifception.frame_workers g !! i) as [fw|] eqn:Ei; [|discriminate].
  pose proof (proj1 (Forall_lookup _ _) Hws _ _ Ei) as (Wn & Wp & Wh).
  unfold FrameWorker.run_step in T. simpl in T.
  destruct (FrameWorker.proc fw) as [hw| |] eqn:Ep; try discriminate.
  assert (Af : FrameWorker.alive fw = true)
    by (unfold FrameWorker.alive; now rewrite Ep).
  destruct (Nat.eq_dec j nf) as [->|Jn].
  - (* every frame is made: the item is a [None] *)
    right. rewrite Nat.sub_diag in T. simpl in T.
    destruct (np - e)%nat as [|k] eqn:K; [discriminate|].
    simpl in T. injection T as <- <-.
    split; [reflexivity|]. split; [lia|].
    split; cbn [Gifception.qin Gifception.qout Gifception.frame_workers
                Gifception.contents Gifception.params Gifception.config];
      try assumption; try lia.
    + rewrite Nat.sub_diag. replace (np - S e)%nat with k by lia. reflexivity.
    + now rewrite <- app_assoc, <- replicate_S_end.
    + now rewrite length_insert.
    + apply Forall_insert; [assumption|]. now repeat split.
    + pose proof (num_alive_insert _ i fw
                    (FrameWorker.set_proc fw FrameWorker.Exited) Ei) as N.
      rewrite Af in N. simpl in N. lia.
  - (* the item is the next frame *)
    left. assert (E0 : e = 0%nat) by (destruct e; [reflexivity|lia]). subst e.
    rewrite seqZ_cons in T by lia. simpl in T.
    destruct (make_frame_ok fw (1 + Z.of_nat j) hw r anc) as (r' & t & M & Sr).
    { now rewrite Wn. }
    { now rewrite Wn. }
    { now rewrite Wp. }
    rewrite M in T. injection T as <- <-.
    split; [lia|].
    split; cbn [Gifception.qin Gifception.qout Gifception.frame_workers
                Gifception.contents Gifception.params Gifception.config];
      try assumption; try lia.
    + replace (Z.succ (1 + Z.of_nat j)) with (1 + Z.of_nat (S j)) by lia.
      replace (Z.pred (Z.of_nat (nf - j))) with (Z.of_nat (nf - S j)) by lia.
      reflexivity.
    + change (replicate 0 None) with (@nil FrameWorker.item).
      rewrite !app_nil_r. now rewrite seqZ_S, fmap_app.
    + now rewrite length_insert.
    + apply Forall_insert; [assumption|]. repeat split; try assumption.
      simpl. now apply lookup_app_l_Some.
    + pose proof (num_alive_insert _ i fw
                    (FrameWorker.set_proc fw (FrameWorker.Running (hw ++ t))) Ei) as N.
      rewrite Af in N. simpl in N. lia.
    + rewrite dom_insert_L, Hdom, frame_names_S, list_to_set_snoc_L.
      apply (comm_L (∪)).
    + apply map_Forall_insert_2; [|assumption]. now rewrite Wp in Sr.
Qed.

(** No worker waits for ever: while one runs, [qin] holds an item for it. *)
Lemma turn_enabled (nb : AnchoredImage.t) (p : params_t) (r : raster)
    (nf np j e : nat) (g : Gifception.t) (td : Gifception.tempdir)
    (i : nat) (fw : FrameWorker.t) :
  pool_inv nb p r nf np j e g td ->
  Gifception.frame_workers g !! i = Some fw ->
  FrameWorker.alive fw = true ->
  is_Some (Gifception.turn i g td).
Proof.
  intros [Hj He Hje Hp Hnf Hnp Hqi Hqo Hlen Hws Hal Hdom Hsz] Ei Af.
  pose proof (num_alive_pos _ _ _ Ei Af) as Pos.
  unfold Gifception.turn. rewrite Ei, Hqi, Hqo.
  unfold FrameWorker.run_step. simpl.
  unfold FrameWorker.alive in Af.
  destruct (FrameWorker.proc fw) as [hw| |]; try discriminate.
  destruct (Nat.eq_dec j nf) as [->|Jn].
  - rewrite Nat.sub_diag. simpl.
    destruct (np - e)%nat as [|k]; [lia|]. simpl. eauto.
  - rewrite seqZ_cons by lia. simpl.
    destruct (FrameWorker.make_frame fw (1 + Z.of_nat j) hw) as [[n x] h'|x h'];
      eauto.
Qed.

Lemma run_app (s1 s2 : list nat) (g : Gifception.t) (td : Gifception.tempdir) :
  Gifception.run (s1 ++ s2) g td
  = Gifception.run s2 (Gifception.run s1 g td).1 (Gifception.run s1 g td).2.
Proof.
  revert g td. induction s1 as [|i s1 IH]; intros g td; [reflexivity|].
  simpl. destruct (Gifception.turn i g td) as [[g' td']|]; apply IH.
Qed.

(** Every state of a run is one of the states above, and each move takes it
    one further. *)
Lemma run_inv (nb : AnchoredImage.t) (p : params_t) (r : raster) (anc : Q * Q)
    (nf np : nat) (sched : list nat) :
  AnchoredImage.rel_anchor nb = Some anc ->
  renderable p r ->
  forall (j e : nat) (g : Gifception.t) (td : Gifception.tempdir),
    pool_inv nb p r nf np j e g td ->
    exists j' e',
      pool_inv nb p r nf np j' e'
        (Gifception.run sched g td).1 (Gifception.run sched g td).2
      /\ (moves sched g td + j + e = j' + e')%nat.
Proof.
  intros A R. induction sched as [|i sched IH]; intros j e g td I.
  - exists j, e. split; [assumption|reflexivity].
  - simpl. destruct (Gifception.turn i g td) as [[g' td']|] eqn:T.
    + destruct (turn_step _ _ _ _ _ _ _ _ _ _ _ _ _ I A R T)
        as [[_ I']|(_ & _ & I')];
        destruct (IH _ _ _ _ I') as (j' & e' & I'' & M);
        exists j', e'; (split; [assumption|lia]).
    + now apply IH.
Qed.

Lemma ended_inv (nb : AnchoredImage.t) (p : params_t) (r : raster)
    (nf np j e : nat) (g : Gifception.t) (td : Gifception.tempdir) :
  pool_inv nb p r nf np j e g td -> (1 <= np)%nat -> ended g = true ->
  j = nf /\ e = np.
Proof.
  intros I Np En. unfold ended in En. apply negb_true_iff in En.
  apply num_alive_zero in En.
  pose proof (inv_alive _ _ _ _ _ _ _ _ _ I) as Al.
  pose proof (inv_e _ _ _ _ _ _ _ _ _ I) as He.
  assert (e = np) by lia. subst e.
  split; [|reflexivity]. apply (inv_je _ _ _ _ _ _ _ _ _ I). lia.
Qed.

(** From every state of a run, some schedule takes every worker to its end
    in no more turns than there are items left in [qin]. *)
Lemma run_completes (nb : AnchoredImage.t) (p : params_t) (r : raster)
    (anc : Q * Q) (nf np : nat) :
  AnchoredImage.rel_anchor nb = Some anc ->
  renderable p r ->
  forall (n j e : nat) (g : Gifception.t) (td : Gifception.tempdir),
    pool_inv nb p r nf np j e g td ->
    (nf - j + (np - e) <= n)%nat ->
    exists sched,
      (length sched <= n)%nat /\ ended (Gifception.run sched g td).1 = true.
Proof.
  intros A R. induction n as [|n IH]; intros j e g td I Hn.
  - exists []. split; [reflexivity|]. simpl. unfold ended.
    apply negb_true_iff, num_alive_zero.
    rewrite (inv_alive _ _ _ _ _ _ _ _ _ I). lia.
  - destruct (ended g) eqn:En.
    + exists []. split; [simpl; lia|exact En].
    + unfold ended in En. apply negb_false_iff, existsb_exists in En.
      destruct En as (fw & In & Af).
      apply list_elem_of_In, list_elem_of_lookup_1 in In as (i & Ei).
      destruct (turn_enabled _ _ _ _ _ _ _ _ _ _ _ I Ei Af) as ([g' td'] & T).
      assert (exists j' e', pool_inv nb p r nf np j' e' g' td'
                            /\ (nf - j' + (np - e') <= n)%nat)
        as (j' & e' & I' & Hn').
      { destruct (turn_step _ _ _ _ _ _ _ _ _ _ _ _ _ I A R T)
          as [[Lt I']|(Eq & Lt & I')]; eexists _, _; (split; [exact I'|lia]). }
      destruct (IH _ _ _ _ I' Hn') as (sched & Ls & Es).
      exists (i :: sched). split; [simpl; lia|]. simpl. now rewrite T.
Qed.

(** The checks of [wait_for_frames] at the end of a run. *)
Lemma wait_at_end (nb : AnchoredImage.t) (p : params_t) (r : raster)
    (nf np : nat) (sched : list nat) (g1 g2 : Gifception.t)
    (td td2 : Gifception.tempdir) (q : Gifception.queue) :
  Gifception.qin g1 = Some (Some q) ->
  Gifception.run sched g1 td = (g2, td2) ->
  pool_inv nb p r nf np nf np g2 td2 ->
  exists g3,
    Gifception.wait_for_frames sched g1 td = Gifception.Returns g3 td2
    /\ Gifception.qout g3
       = Some (Some ((Some <$> seqZ 1 (Z.of_nat nf)) ++ replicate np None)).
Proof.
  intros Q Rn I. unfold Gifception.wait_for_frames. rewrite Q, Rn.
  assert (En : existsb FrameWorker.alive (Gifception.frame_workers g2) = false).
  { apply num_alive_zero. rewrite (inv_alive _ _ _ _ _ _ _ _ _ I). lia. }
  rewrite En.
  rewrite (inv_qin _ _ _ _ _ _ _ _ _ I), (inv_qout _ _ _ _ _ _ _ _ _ I).
  rewrite !Nat.sub_diag. simpl length. simpl negb. cbv iota.
  rewrite (inv_np _ _ _ _ _ _ _ _ _ I), (inv_params _ _ _ _ _ _ _ _ _ I),
    (inv_nf _ _ _ _ _ _ _ _ _ I).
  rewrite length_app, length_fmap, length_seqZ, length_replicate.
  replace (Z.of_nat (Z.to_nat (Z.of_nat nf) + np) =? Z.of_nat np + Z.of_nat nf)
    with true by (symmetry; apply Z.eqb_eq; lia).
  simpl negb. cbv iota. eexists. split; reflexivity.
Qed.

(** The files at the end of a run: one for each frame number, no other, and
    each of the size of the frames. *)
Lemma files_at_end (nb : AnchoredImage.t) (p : params_t) (r : raster)
    (nf np : nat) (g : Gifception.t) (td : Gifception.tempdir) :
  pool_inv nb p r nf np nf np g td ->
  dom (Gifception.contents td) = list_to_set (frame_names (Z.of_nat nf))
  /\ size (Gifception.contents td) = nf
  /\ map_Forall (fun _ x => raster_size x = frame_size p r) (Gifception.contents td).
Proof.
  intros I. pose proof (inv_dom _ _ _ _ _ _ _ _ _ I) as D.
  split; [assumption|]. split; [|apply (inv_sizes _ _ _ _ _ _ _ _ _ I)].
  rewrite <- size_dom, D, size_list_to_set by apply NoDup_frame_names.
  rewrite length_frame_names. lia.
Qed.

Lemma omap_frames (l : list Z) (k : nat) :
  omap id ((Some <$> l) ++ replicate k (@None Z)) = l.
Proof.
  rewrite omap_app.
  assert (E1 : omap id (Some <$> l) = l).
  { induction l as [|x l IH]; [reflexivity|].
    rewrite fmap_cons.
    change (omap id (Some x :: (Some <$> l))) with (x :: omap id (Some <$> l)).
    now rewrite IH. }
  assert (E2 : omap id (replicate k (@None Z)) = []).
  { induction k as [|k IH]; [reflexivity|exact IH]. }
  now rewrite E1, E2, app_nil_r.
Qed.

(** The run that follows a [start_making_frames] that returned, on a
    renderable nested base and at least one worker. *)
Lemma run_from_start (nb : AnchoredImage.t) (p : params_t) (r : raster)
    (anc : Q * Q) (nf np : nat) (g1 : Gifception.t) (td : Gifception.tempdir) :
  pool_inv nb p r nf np 0 0 g1 td ->
  (1 <= np)%nat ->
  AnchoredImage.rel_anchor nb = Some anc ->
  renderable p r ->
  (forall sched, (moves sched g1 td <= nf + np)%nat)
  /\ (forall sched,
        exists sched',
          (length sched' <= nf + np)%nat
          /\ ended (Gifception.run (sched ++ sched') g1 td).1 = true)
  /\ (forall sched,
        ended (Gifception.run sched g1 td).1 = true ->
        exists g3,
          Gifception.wait_for_frames sched g1 td
          = Gifception.Returns g3 (Gifception.run sched g1 td).2
          /\ Gifception.qout g3
             = Some (Some ((Some <$> seqZ 1 (Z.of_nat nf)) ++ replicate np None))
          /\ pool_inv nb p r nf np nf np
               (Gifception.run sched g1 td).1 (Gifception.run sched g1 td).2).
Proof.
  intros I0 Np A R. split; [|split].
  - intros sched.
    destruct (run_inv nb p r anc nf np sched A R _ _ _ _ I0) as (j & e & I & M).
    pose proof (inv_j _ _ _ _ _ _ _ _ _ I).
    pose proof (inv_e _ _ _ _ _ _ _ _ _ I). lia.
  - intros sched.
    destruct (run_inv nb p r anc nf np sched A R _ _ _ _ I0) as (j & e & I & _).
    destruct (run_completes nb p r anc nf np A R _ _ _ _ _ I (Nat.le_refl _))
      as (sched' & L & En).
    exists sched'. split; [lia|]. now rewrite run_app.
  - intros sched En.
    destruct (run_inv nb p r anc nf np sched A R _ _ _ _ I0) as (j & e & I & _).
    destruct (ended_inv _ _ _ _ _ _ _ _ _ I Np En) as [-> ->].
    destruct (Gifception.run sched g1 td) as [g2 td2] eqn:Rn. simpl in *.
    destruct (wait_at_end nb p r nf np sched g1 g2 td td2 _
                (inv_qin _ _ _ _ _ _ _ _ _ I0) Rn I) as (g3 & W & Qo).
    exists g3. auto.
Qed.


(** ** The scenario of the specification *)

(** C8, as the code has it.  Base image 800 by 600 given as an
    [AnchoredImage], [preup] 2, [inner_scale] 4, [downscale] 2, 5 frames,
    60 fps, [paste_within], 3 workers, whatever the pixels and the
    floating point power: the object is built, [start_making_frames]
    returns, the workers make at most 8 turns and can always be run to
    their end, and then [make_frames] returns the directory with exactly
    the files [frame-00001.png] to [frame-00005.png], each of size 800 by
    600 (the nested base is 1600 by 1200, and [downscale] halves it). *)
Theorem scenario_frames (d : pixels) :
  let h0 : heap := [Raster 800 600 d] in
  let prm := Params 2 4 2 5 60 true in
  let cfg := Gifception.Config (800000000 # 1) 3 in
  exists g td1 g1 h1,
    (a ← AnchoredImage.new 0;
     Gifception.__init__ (AnchoredImage.Anchored a) (Some cfg) (Some prm)) h0
    = Returned g h0
    /\ Gifception.start_making_frames 6 g h0 = Returned (Some (td1, g1)) h1
    /\ (forall sched, (moves sched g1 td1 <= 8)%nat)
    /\ (forall sched,
          exists sched',
            (length sched' <= 8)%nat
            /\ ended (Gifception.run (sched ++ sched') g1 td1).1 = true)
    /\ (forall sched,
          ended (Gifception.run sched g1 td1).1 = true ->
          exists td g',
            Gifception.make_frames 6 sched g h0 = Returned (Some (td, g')) h1
            /\ dom (Gifception.contents td)
               = list_to_set ["frame-00001.png"; "frame-00002.png";
                              "frame-00003.png"; "frame-00004.png";
                              "frame-00005.png"]
            /\ size (Gifception.contents td) = 5%nat
            /\ map_Forall (fun _ x => raster_size x = (800, 600))
                 (Gifception.contents td)).
Proof.
  intros h0 prm cfg.
  set (nb := {| AnchoredImage.img := 2%nat;
                AnchoredImage.config := AnchoredImage._default_config;
                AnchoredImage.rel_anchor := Some (1 # 2, 1 # 2)%Q |}).
  set (g := {| Gifception.base_image :=
                 {| AnchoredImage.img := 0%nat;
                    AnchoredImage.config := AnchoredImage._default_config;
                    AnchoredImage.rel_anchor := Some (1 # 2, 1 # 2)%Q |};
               Gifception.config := cfg;
               Gifception.params := prm;
               Gifception.nested_base := None;
               Gifception.frame_workers := [];
               Gifception.qin := None;
               Gifception.qout := None |}).
  exists g.
  assert (S : exists td1 g1 h1 r,
             Gifception.start_making_frames 6 g h0 = Returned (Some (td1, g1)) h1
             /\ Gifception.nested_base g1 = Some nb
             /\ h1 !! 2%nat = Some r
             /\ raster_size r = (1600, 1200)).
  { eexists _, _, _, _. split; [|split; [|split]].
    - vm_compute. reflexivity.
    - reflexivity.
    - reflexivity.
    - reflexivity. }
  destruct S as (td1 & g1 & h1 & r & S & Nb & E & Sr).
  exists td1, g1, h1. split; [reflexivity|]. split; [exact S|].
  pose proof (pool_inv_start 6 g g1 h0 h1 td1 nb r 5 3 S eq_refl eq_refl Nb E)
    as I0.
  assert (R : renderable prm r).
  { destruct r as [w hh dr]. injection Sr as -> ->.
    unfold renderable, frame_size, raster_size. simpl width. simpl height.
    split; [lia|]. split; [lia|]. split; [discriminate|].
    split; [reflexivity|]. split; [discriminate|].
    split.
    - vm_compute. discriminate.
    - right. vm_compute. split; discriminate. }
  destruct (run_from_start nb prm r (1 # 2, 1 # 2)%Q 5 3 _ _ I0
              ltac:(lia) eq_refl R) as (M & C & W).
  split; [exact M|]. split; [exact C|].
  intros sched En. destruct (W sched En) as (g3 & Wt & _ & I).
  destruct (files_at_end _ _ _ _ _ _ _ I) as (D & Sz & Fs).
  eexists _, g3. split; [|repeat split].
  - unfold Gifception.make_frames. rewrite S, Wt. reflexivity.
  - exact D.
  - exact Sz.
  - destruct r as [w hh dr]. injection Sr as -> ->. exact Fs.
Qed.

(** ** The loop of [prepare_nested_base] *)








End Properties.

(** * More of the code *)

Section MoreProperties.
Context `{Pillow} `{FloatPow}.

(** ** What a turn of a worker does *)

Lemma make_frame_name (fw : FrameWorker.t) (n : Z) (h h' : heap)
    (name : string) (r : raster) :
  FrameWorker.make_frame fw n h = Returned (name, r) h' -> name = frame_name n.
Proof.
  unfold FrameWorker.make_frame. intros S.
  repeat (apply bind_returned in S as (? & ? & _ & S)).
  now injection S as <- _ _.
Qed.

Lemma turn_cases (i : nat) (g g' : Gifception.t) (td td' : Gifception.tempdir) :
  Gifception.turn i g td = Some (g', td') ->
  exists fw hw x rest qo,
    Gifception.frame_workers g !! i = Some fw
    /\ FrameWorker.proc fw = FrameWorker.Running hw
    /\ Gifception.qin g = Some (Some (x :: rest))
    /\ Gifception.qout g = Some (Some qo)
    /\ Gifception.params g' = Gifception.params g
    /\ Gifception.config g' = Gifception.config g
    /\ Gifception.nested_base g' = Gifception.nested_base g
    /\ Gifception.qin g' = Some (Some rest)
    /\ ((x = None
         /\ Gifception.frame_workers g'
            = <[i := FrameWorker.set_proc fw FrameWorker.Exited]>
                (Gifception.frame_workers g)
         /\ Gifception.qout g' = Some (Some (qo ++ [None]))
         /\ Gifception.contents td' = Gifception.contents td)
        \/ (exists n r h',
              x = Some n
              /\ FrameWorker.make_frame fw n hw = Returned (frame_name n, r) h'
              /\ Gifception.frame_workers g'
                 = <[i := FrameWorker.set_proc fw (FrameWorker.Running h')]>
                     (Gifception.frame_workers g)
              /\ Gifception.qout g' = Some (Some (qo ++ [Some n]))
              /\ Gifception.contents td'
                 = <[frame_name n := r]> (Gifception.contents td))
        \/ (exists n e h',
              x = Some n
              /\ FrameWorker.make_frame fw n hw = Raised e h'
              /\ Gifception.frame_workers g'
                 = <[i := FrameWorker.set_proc fw (FrameWorker.Died e)]>
                     (Gifception.frame_workers g)
              /\ Gifception.qout g' = Some (Some qo)
              /\ Gifception.contents td' = Gifception.contents td)).
Proof.
  unfold Gifception.turn. intros T.
  destruct (Gifception.frame_workers g !! i) as [fw|] eqn:Ei; [|discriminate].
  destruct (Gifception.qin g) as [[qi|]|] eqn:Qi; try discriminate.
  destruct (Gifception.qout g) as [[qo|]|] eqn:Qo; try discriminate.
  unfold FrameWorker.run_step in T. simpl in T.
  destruct (FrameWorker.proc fw) as [hw| |] eqn:Ep; try discriminate.
  destruct qi as [|[n|] rest]; try discriminate.
  - destruct (FrameWorker.make_frame fw n hw) as [[name r] h'|e h'] eqn:M;
      injection T as <- <-; exists fw, hw, (Some n), rest, qo;
      repeat (split; [first [reflexivity|assumption]|]).
    + right. left. pose proof (make_frame_name _ _ _ _ _ _ M) as ->.
      exists n, r, h'. repeat split; try reflexivity; assumption.
    + right. right. exists n, e, h'. repeat split; try reflexivity; assumption.
  - injection T as <- <-. exists fw, hw, None, rest, qo.
    repeat (split; [first [reflexivity|assumption]|]). left. repeat split.
Qed.

Lemma num_died_insert (ws : list FrameWorker.t) (i : nat) (fw fw' : FrameWorker.t) :
  ws !! i = Some fw ->
  (num_died (<[i := fw']> ws) + Nat.b2n (died fw)
   = num_died ws + Nat.b2n (died fw'))%nat.
Proof.
  unfold num_died. revert i. induction ws as [|w ws IH]; intros [|i] E;
    try discriminate.
  - injection E as ->. simpl.
    destruct (died fw), (died fw'); simpl; lia.
  - simpl in E. specialize (IH i E). simpl.
    destruct (died w); simpl; lia.
Qed.

Lemma tally_step (init : Gifception.queue) (p : params_t) (c : Gifception.config_t)
    (k i : nat) (g g' : Gifception.t) (td td' : Gifception.tempdir) :
  tally init p c k g td ->
  Gifception.turn i g td = Some (g', td') ->
  tally init p c (S k) g' td'.
Proof.
  intros [Hk Hp Hc Hqi (qo & Hqo & Hn) Hf] T.
  apply turn_cases in T
    as (fw & hw & x & rest & qo' & Ei & Ep & Qi & Qo & Pr & Cf & _ & Qi' & Cs).
  rewrite Hqi in Qi. injection Qi as Dk.
  rewrite Hqo in Qo. injection Qo as <-.
  assert (Lk : init !! k = Some x).
  { pose proof (lookup_drop init k 0) as L. rewrite Dk, Nat.add_0_r in L.
    now symmetry. }
  assert (Dk' : rest = drop (S k) init).
  { rewrite (drop_S _ _ _ Lk) in Dk. now injection Dk as ->. }
  assert (Nd : died fw = false) by (unfold died; now rewrite Ep).
  pose proof (lookup_lt_Some _ _ _ Lk) as Lt.
  assert (Tk : take (S k) init = take k init ++ [x]) by now apply take_S_r.
  destruct Cs as [(-> & Ws & Qo' & Ct)|[(n & r & h' & -> & M & Ws & Qo' & Ct)
                                        |(n & e & h' & -> & M & Ws & Qo' & Ct)]].
  - pose proof (num_died_insert _ i fw
                  (FrameWorker.set_proc fw FrameWorker.Exited) Ei) as N.
    rewrite Nd in N. simpl in N. rewrite <- Ws in N.
    split; try congruence; try lia.
    + eexists. split; [exact Qo'|]. rewrite length_app. simpl. lia.
    + intros D0. rewrite Ct, Tk, omap_app. simpl. rewrite app_nil_r.
      apply Hf. lia.
  - pose proof (num_died_insert _ i fw
                  (FrameWorker.set_proc fw (FrameWorker.Running h')) Ei) as N.
    rewrite Nd in N. simpl in N. rewrite <- Ws in N.
    split; try congruence; try lia.
    + eexists. split; [exact Qo'|]. rewrite length_app. simpl. lia.
    + intros D0. rewrite Ct, Tk, omap_app, fmap_app, dom_insert_L.
      rewrite Hf by lia.
      change (omap id [Some n]) with [n].
      change (frame_name <$> [n]) with [frame_name n].
      rewrite list_to_set_snoc_L.
      apply (comm_L (∪)).
  - pose proof (num_died_insert _ i fw
                  (FrameWorker.set_proc fw (FrameWorker.Died e)) Ei) as N.
    rewrite Nd in N. simpl in N. rewrite <- Ws in N.
    split; try congruence; try lia.
    eexists. split; [exact Qo'|]. lia.
Qed.

Lemma tally_run (init : Gifception.queue) (p : params_t) (c : Gifception.config_t)
    (sched : list nat) :
  forall (k : nat) (g : Gifception.t) (td : Gifception.tempdir),
    tally init p c k g td ->
    exists k', tally init p c k'
                 (Gifception.run sched g td).1 (Gifception.run sched g td).2.
Proof.
  induction sched as [|i sched IH]; intros k g td I; [eauto|].
  simpl. destruct (Gifception.turn i g td) as [[g' td']|] eqn:T; [|eauto].
  eapply IH, tally_step; eauto.
Qed.

Lemma num_died_init (nb : AnchoredImage.t) (p : params_t) (h1 : heap) (l : list Z) :
  num_died ((fun pn => {| FrameWorker.nested_base := nb;
                          FrameWorker.params := p;
                          FrameWorker.num := pn;
                          FrameWorker.proc := FrameWorker.Running h1 |}) <$> l)
  = 0%nat.
Proof.
  induction l as [|x l IH]; [reflexivity|].
  rewrite fmap_cons. unfold num_died in *. simpl List.filter. exact IH.
Qed.

Lemma tally_start (fuel : nat) (g g1 : Gifception.t) (h h1 : heap)
    (td : Gifception.tempdir) :
  Gifception.start_making_frames fuel g h = Returned (Some (td, g1)) h1 ->
  tally ((Some <$> seqZ 1 (num_frames (Gifception.params g)))
         ++ replicate (Z.to_nat (Gifception.num_processes (Gifception.config g)))
              None)
    (Gifception.params g) (Gifception.config g) 0 g1 td.
Proof.
  intros S. apply start_returned in S as (nb & _ & -> & Pr & Cf & Qi & Qo & Ws).
  split; try assumption; try lia.
  - exists []. split; [assumption|]. rewrite Ws, num_died_init. reflexivity.
  - intros _. simpl. now rewrite dom_empty_L.
Qed.

(** What [wait_for_frames] has checked when it returns. *)
Lemma wait_returned (sched : list nat) (g1 g3 : Gifception.t)
    (td td3 : Gifception.tempdir) :
  Gifception.wait_for_frames sched g1 td = Gifception.Returns g3 td3 ->
  let g2 := (Gifception.run sched g1 td).1 in
  td3 = (Gifception.run sched g1 td).2
  /\ ended g2 = true
  /\ Gifception.frame_workers g3 = []
  /\ Gifception.qout g3 = Gifception.qout g2
  /\ exists qo,
       Gifception.qin g2 = Some (Some [])
       /\ Gifception.qout g2 = Some (Some qo)
       /\ Z.of_nat (length qo)
          = Gifception.num_processes (Gifception.config g2)
            + num_frames (Gifception.params g2).
Proof.
  unfold Gifception.wait_for_frames, ended.
  destruct (Gifception.qin g1) as [[q|]|]; try discriminate.
  destruct (Gifception.run sched g1 td) as [g2 td2]. simpl.
  destruct (existsb _ _); [discriminate|].
  destruct (Gifception.qin g2) as [[qi|]|]; try discriminate.
  destruct (Gifception.qout g2) as [[qo|]|]; try discriminate.
  destruct qi as [|x qi]; [|discriminate]. simpl.
  destruct (Z.eqb_spec (Z.of_nat (length qo))
              (Gifception.num_processes (Gifception.config g2)
               + num_frames (Gifception.params g2))) as [E|E]; [|discriminate].
  simpl. intros [= <- <-]. repeat split. eauto.
Qed.

Lemma length_start_queue (nf nt : Z) :
  0 <= nf -> 0 <= nt ->
  Z.of_nat (length ((Some <$> seqZ 1 nf) ++ replicate (Z.to_nat nt) (@None Z)))
  = nt + nf.
Proof.
  intros. rewrite length_app, length_fmap, length_seqZ, length_replicate. lia.
Qed.

(** The end of a run in which [wait_for_frames] returned: every item was
    taken and no worker died. *)
Lemma tally_at_return (init : Gifception.queue) (p : params_t)
    (c : Gifception.config_t) (k : nat) (g2 : Gifception.t)
    (td2 : Gifception.tempdir) (qo : Gifception.queue) :
  tally init p c k g2 td2 ->
  Gifception.qin g2 = Some (Some []) ->
  Gifception.qout g2 = Some (Some qo) ->
  length qo = length init ->
  k = length init /\ num_died (Gifception.frame_workers g2) = 0%nat.
Proof.
  intros [Hk Hp Hc Hqi (qo' & Hqo & Hn) Hf] Qi Qo L.
  rewrite Hqi in Qi. injection Qi as Dk.
  rewrite Hqo in Qo. injection Qo as ->.
  assert (length (drop k init) = 0%nat) as Ld by now rewrite Dk.
  rewrite length_drop in Ld. lia.
Qed.

(** ** The checks of [wait_for_frames] *)

(** X1.  Whenever [make_frames] returns, with [num_frames] and
    [num_processes] not negative, the directory holds exactly the files
    [frame-00001.png] to the one numbered [num_frames], no worker has died,
    and the set of workers is empty again.  Nothing is asked of the image
    or of the other parameters: a frame that could not be made makes
    [make_frames] raise instead. *)
Theorem make_frames_sound (fuel : nat) (sched : list nat) (g g' : Gifception.t)
    (h h' : heap) (td' : Gifception.tempdir) :
  0 <= num_frames (Gifception.params g) ->
  0 <= Gifception.num_processes (Gifception.config g) ->
  Gifception.make_frames fuel sched g h = Returned (Some (td', g')) h' ->
  dom (Gifception.contents td')
  = list_to_set (frame_name <$> seqZ 1 (num_frames (Gifception.params g)))
  /\ size (Gifception.contents td') = Z.to_nat (num_frames (Gifception.params g))
  /\ Gifception.frame_workers g' = []
  /\ exists g1 td1,
       Gifception.start_making_frames fuel g h = Returned (Some (td1, g1)) h'
       /\ ended (Gifception.run sched g1 td1).1 = true
       /\ num_died (Gifception.frame_workers (Gifception.run sched g1 td1).1)
          = 0%nat.
Proof.
  intros Nf Nt M. unfold Gifception.make_frames in M.
  destruct (Gifception.start_making_frames fuel g h)
    as [[[td1 g1]|] h1|e h1] eqn:S; try discriminate.
  destruct (Gifception.wait_for_frames sched g1 td1) as [|e|g3 td3] eqn:W;
    try discriminate.
  injection M as <- <- <-.
  apply wait_returned in W as (-> & En & Ws & _ & qo & Qi & Qo & Lq).
  destruct (tally_run _ _ _ sched _ _ _ (tally_start _ _ _ _ _ _ S)) as (k & T).
  rewrite (tally_params _ _ _ _ _ _ T), (tally_config _ _ _ _ _ _ T) in Lq.
  rewrite <- (length_start_queue _ _ Nf Nt) in Lq. apply Nat2Z.inj in Lq.
  destruct (tally_at_return _ _ _ _ _ _ _ T Qi Qo Lq) as [-> D0].
  pose proof (tally_files _ _ _ _ _ _ T D0) as Dm.
  rewrite firstn_all, omap_frames in Dm.
  split; [exact Dm|]. split; [|split; [exact Ws|]].
  - rewrite <- size_dom, Dm.
    rewrite size_list_to_set by apply (NoDup_frame_names _).
    now rewrite length_fmap, length_seqZ.
  - exists g1, td1. auto.
Qed.

(** X2.  A worker that dies is not missed: when every worker has ended and
    one of them died at a frame, [make_frames] raises [GifceptionException]
    and returns no directory. *)
Theorem dead_worker_detected (fuel : nat) (sched : list nat)
    (g g1 : Gifception.t) (h h1 : heap) (td : Gifception.tempdir) :
  0 <= num_frames (Gifception.params g) ->
  0 <= Gifception.num_processes (Gifception.config g) ->
  Gifception.start_making_frames fuel g h = Returned (Some (td, g1)) h1 ->
  ended (Gifception.run sched g1 td).1 = true ->
  (1 <= num_died (Gifception.frame_workers (Gifception.run sched g1 td).1))%nat ->
  exists msg,
    Gifception.make_frames fuel sched g h = Raised (GifceptionException msg) h1.
Proof.
  intros Nf Nt S En D.
  pose proof (tally_run _ _ _ sched _ _ _ (tally_start _ _ _ _ _ _ S)) as (k & T).
  pose proof (length_start_queue _ _ Nf Nt) as Li.
  set (init := (Some <$> seqZ 1 (num_frames (Gifception.params g))) ++ _) in *.
  unfold Gifception.make_frames. rewrite S.
  unfold Gifception.wait_for_frames.
  pose proof (start_returned _ _ _ _ _ _ S) as (_ & _ & _ & _ & _ & Qi1 & _).
  rewrite Qi1.
  destruct (Gifception.run sched g1 td) as [g2 td2]. cbn [fst snd] in *.
  unfold ended in En. apply negb_true_iff in En. rewrite En.
  destruct T as [Hk Hp Hc Hqi (qo & Hqo & Hn) _].
  rewrite Hqi, Hqo. unfold Gifception.queue, FrameWorker.item in *.
  destruct (negb (length (drop k init) =? 0)%nat) eqn:C; [eauto|].
  rewrite negb_false_iff in C. apply Nat.eqb_eq in C.
  rewrite length_drop in C. rewrite Hp, Hc, <- Li.
  destruct (Z.eqb_spec (Z.of_nat (length qo)) (Z.of_nat (length init))) as [E|E].
  - apply Nat2Z.inj in E. lia.
  - simpl. eauto.
Qed.

(** ** The life cycle of a run *)

Lemma run_fields (sched : list nat) :
  forall (g : Gifception.t) (td : Gifception.tempdir),
    Gifception.params (Gifception.run sched g td).1 = Gifception.params g
    /\ Gifception.config (Gifception.run sched g td).1 = Gifception.config g
    /\ Gifception.nested_base (Gifception.run sched g td).1
       = Gifception.nested_base g
    /\ length (Gifception.frame_workers (Gifception.run sched g td).1)
       = length (Gifception.frame_workers g).
Proof.
  induction sched as [|i sched IH]; intros g td; [repeat split|].
  simpl. destruct (Gifception.turn i g td) as [[g' td']|] eqn:T; [|apply IH].
  destruct (IH g' td') as (P & C & N & L).
  apply turn_cases in T
    as (fw & hw & x & rest & qo & _ & _ & _ & _ & Pr & Cf & Nb & _ & Cs).
  assert (Lw : length (Gifception.frame_workers g')
               = length (Gifception.frame_workers g)).
  { destruct Cs as [(_ & -> & _)|[(n & r & h' & _ & _ & -> & _)
                                  |(n & e & h' & _ & _ & -> & _)]];
      apply length_insert. }
  repeat split; congruence.
Qed.

(** X3.  While a run is on, from the [start_making_frames] that returned
    with at least one worker up to [wait_for_frames], another
    [start_making_frames] raises [GifceptionException], whatever the
    workers have done meanwhile, and touches nothing. *)
Theorem start_twice_raises (fuel fuel' : nat) (sched : list nat)
    (g g1 : Gifception.t) (h h1 h' : heap) (td : Gifception.tempdir) :
  1 <= Gifception.num_processes (Gifception.config g) ->
  Gifception.start_making_frames fuel g h = Returned (Some (td, g1)) h1 ->
  Gifception.start_making_frames fuel' (Gifception.run sched g1 td).1 h'
  = Raised (GifceptionException "Frame generation still in progress!") h'.
Proof.
  intros Np S.
  destruct (run_fields sched g1 td) as (_ & _ & _ & L).
  apply start_returned in S as (nb & _ & _ & _ & _ & _ & _ & Ws).
  rewrite Ws, length_fmap, length_seqZ in L.
  unfold Gifception.start_making_frames.
  destruct (length (Gifception.frame_workers (Gifception.run sched g1 td).1))
    as [|n]; [lia|reflexivity].
Qed.

(** X4.  After a [make_frames] that returned, the next
    [start_making_frames] returns without preparing the nested base again
    (no turn of the loop is needed): it keeps the nested base of the first
    run, fills [qin] anew, empties [qout] and gives a new, empty
    directory. *)
Theorem restart_reuses_nested_base (fuel : nat) (sched : list nat)
    (g g' : Gifception.t) (h h' h'' : heap) (td' : Gifception.tempdir) :
  0 <= num_frames (Gifception.params g) ->
  0 <= Gifception.num_processes (Gifception.config g) ->
  Gifception.make_frames fuel sched g h = Returned (Some (td', g')) h' ->
  exists nb td2 g2,
    Gifception.nested_base g' = Some nb
    /\ Gifception.start_making_frames 0 g' h'' = Returned (Some (td2, g2)) h''
    /\ Gifception.nested_base g2 = Some nb
    /\ Gifception.contents td2 = ∅
    /\ Gifception.qout g2 = Some (Some [])
    /\ Gifception.qin g2
       = Some (Some ((Some <$> seqZ 1 (num_frames (Gifception.params g)))
                     ++ replicate
                          (Z.to_nat (Gifception.num_processes (Gifception.config g)))
                          None)).
Proof.
  intros Nf Nt M. unfold Gifception.make_frames in M.
  destruct (Gifception.start_making_frames fuel g h)
    as [[[td1 g1]|] h1|e h1] eqn:S; try discriminate.
  destruct (Gifception.wait_for_frames sched g1 td1) as [|e|g3 td3] eqn:W;
    try discriminate.
  injection M as <- <- <-.
  pose proof (start_returned _ _ _ _ _ _ S) as (nb & Nb & _ & Pr & Cf & Qi & _).
  destruct (run_fields sched g1 td1) as (P2 & C2 & N2 & _).
  unfold Gifception.wait_for_frames in W. rewrite Qi in W.
  destruct (Gifception.run sched g1 td1) as [g2 td2]. simpl in P2, C2, N2.
  destruct (existsb _ _); [discriminate|].
  destruct (Gifception.qin g2) as [[qi|]|]; try discriminate.
  destruct (Gifception.qout g2) as [[qo|]|]; try discriminate.
  destruct (negb _); [discriminate|]. destruct (negb _); [discriminate|].
  injection W as <- <-.
  exists nb. unfold Gifception.start_making_frames. simpl.
  rewrite N2, Nb, P2, C2, Pr, Cf.
  unfold mbind, py_bind, bind, ret.
  assert (F : Gifception.fits
                (Gifception.num_processes (Gifception.config g)
                 + num_frames (Gifception.params g))
                ((Some <$> seqZ 1 (num_frames (Gifception.params g)))
                 ++ replicate
                      (Z.to_nat (Gifception.num_processes (Gifception.config g)))
                      None) = true).
  { pose proof (length_start_queue _ _ Nf Nt) as L.
    unfold Gifception.fits. apply orb_true_iff. right. apply Z.leb_le.
    apply Z.eq_le_incl. exact L. }
  rewrite F. simpl. eexists _, _. repeat split.
Qed.


(** X6.  Once a worker has died, [is_making_frames()] stays [True] for the
    rest of the run, also after every worker has ended: the frame that
    killed the worker never reaches [qout]. *)
Theorem is_making_frames_after_death (fuel : nat) (sched : list nat)
    (g g1 : Gifception.t) (h h1 : heap) (td : Gifception.tempdir) :
  0 <= num_frames (Gifception.params g) ->
  0 <= Gifception.num_processes (Gifception.config g) ->
  Gifception.start_making_frames fuel g h = Returned (Some (td, g1)) h1 ->
  (1 <= num_died (Gifception.frame_workers (Gifception.run sched g1 td).1))%nat ->
  Gifception.is_making_frames (Gifception.run sched g1 td).1 = inr true.
Proof.
  intros Nf Nt S D.
  pose proof (length_start_queue _ _ Nf Nt) as Li.
  destruct (tally_run _ _ _ sched _ _ _ (tally_start _ _ _ _ _ _ S)) as (k & I).
  destruct I as [Hk Hp Hc _ (qo & Hqo & Hlen) _].
  unfold Gifception.is_making_frames. rewrite Hqo, Hp, Hc. f_equal.
  apply Z.ltb_lt. unfold Gifception.queue, FrameWorker.item in *. lia.
Qed.

(** ** Anchors *)


Lemma init_absolute_at (i : loc) (cfg : option AnchoredImage.config_t)
    (p : Q * Q) (h : heap) (o : option exn) (a : AnchoredImage.t) :
  AnchoredImage.set_anchor_absolute
    {| AnchoredImage.img := i;
       AnchoredImage.config := default AnchoredImage._default_config cfg;
       AnchoredImage.rel_anchor := None |} p h = Returned (o, a) h ->
  AnchoredImage.__init__ i p false cfg h = Returned a h.
Proof.
  intros E. unfold AnchoredImage.__init__.
  erewrite bind_step by exact E. reflexivity.
Qed.



(** X9.  An absolute anchor beyond the image makes an object without
    anchor: [AnchoredImage(img, (x, y), relative = False)] with [x] or [y]
    beyond the sides returns, no exception is raised, and [rel_anchor] is
    not assigned; [anchor_absolute()] and [get_anchor_absolute()] then
    raise [AttributeError], a [Gifception] accepts the object, and its
    [start_making_frames()] raises [AttributeError] after one copy of the
    image. *)
Theorem absolute_anchor_outside (i : loc) (cfg : option AnchoredImage.config_t)
    (gcfg : option Gifception.config_t) (prm : option params_t) (fuel : nat)
    (h : heap) (r : raster) (x y : Q) :
  h !! i = Some r ->
  (inject_Z (width r) < x \/ inject_Z (height r) < y)%Q ->
  exists a g,
    AnchoredImage.__init__ i (x, y) false cfg h = Returned a h
    /\ AnchoredImage.rel_anchor a = None
    /\ AnchoredImage.anchor_absolute a h
       = Raised (AttributeError "AnchoredImage" "rel_anchor") h
    /\ AnchoredImage.get_anchor_absolute a h
       = Raised (AttributeError "AnchoredImage" "rel_anchor") h
    /\ Gifception.__init__ (AnchoredImage.Anchored a) gcfg prm h = Returned g h
    /\ Gifception.start_making_frames fuel g h
       = Raised (AttributeError "AnchoredImage" "rel_anchor") (h ++ [r]).
Proof.
  intros E O.
  eexists _, _. split.
  { eapply init_absolute_at.
    apply set_anchor_absolute_beyond; [exact E|exact O]. }
  split; [reflexivity|]. split; [reflexivity|]. split; [reflexivity|].
  split; [reflexivity|].
  unfold Gifception.start_making_frames. cbn [Gifception.frame_workers length
    Nat.eqb negb Gifception.nested_base].
  unfold Gifception.prepare_nested_base. cbn [Gifception.base_image].
  unfold AnchoredImage.__deepcopy__.
  unfold mbind at 1, py_bind, bind at 1.
  unfold mbind at 1, py_bind, bind at 1.
  unfold mbind at 1, py_bind, bind at 1.
  cbn [AnchoredImage.img]. rewrite (copy_at _ _ _ E). reflexivity.
Qed.

(** ** Zooming, scaling and pasting *)




Lemma py_div_zero (a b : Q) (h : heap) :
  (b == 0)%Q -> py_div a b h = Raised ZeroDivisionError h.
Proof.
  intros Z0. unfold py_div, Num.is_zero.
  now rewrite (proj2 (Qeq_bool_iff b 0) Z0).
Qed.




(** ** The images of the caller *)

Lemma deepcopy_returned (a a' : AnchoredImage.t) (h h' : heap) :
  AnchoredImage.__deepcopy__ a h = Returned a' h' ->
  exists r, h' = h ++ [r] /\ AnchoredImage.img a' = length h.
Proof.
  unfold AnchoredImage.__deepcopy__, Image.copy, AnchoredImage.get_rel_anchor,
    AnchoredImage.__init__.
  unfold mbind, py_bind, bind, read, alloc, ret, raise.
  destruct (h !! AnchoredImage.img a) as [r|]; [|discriminate].
  destruct (AnchoredImage.rel_anchor a); [|discriminate].
  intros [= <- <-]. now exists r.
Qed.

Lemma deepcopy_raised (a : AnchoredImage.t) (h h' : heap) (e : exn) :
  AnchoredImage.__deepcopy__ a h = Raised e h' -> h `prefix_of` h'.
Proof.
  unfold AnchoredImage.__deepcopy__, Image.copy, AnchoredImage.get_rel_anchor,
    AnchoredImage.__init__.
  unfold mbind, py_bind, bind, read, alloc, ret, raise.
  destruct (h !! AnchoredImage.img a) as [r|]; [|now intros [= _ <-]].
  destruct (AnchoredImage.rel_anchor a); [discriminate|].
  intros [= _ <-]. now apply prefix_app_r.
Qed.

Lemma prefix_insert_beyond (h0 h : heap) (l : loc) (x : raster) :
  h0 `prefix_of` h -> (length h0 <= l)%nat -> h0 `prefix_of` <[l := x]> h.
Proof.
  intros [k ->] L. rewrite insert_app_r_alt by exact L. now apply prefix_app_r.
Qed.

(** The loop pastes onto the nested base only: the images that the store
    had before the nested base was made stay as they are, however the loop
    ends. *)
Lemma paste_loop_prefix (nested : AnchoredImage.t) (s : Q) (h0 : heap) :
  (length h0 <= AnchoredImage.img nested)%nat ->
  forall (fuel : nat) (mini : AnchoredImage.t) (ts : Q) (h : heap),
    h0 `prefix_of` h ->
    h0 `prefix_of` final_heap (Gifception.paste_loop fuel nested mini s ts h).
Proof.
  intros L. induction fuel as [|fuel IH]; intros mini ts h P; [exact P|].
  simpl.
  destruct ((AnchoredImage.paste_aligned nested mini;;
             AnchoredImage.scale mini s None) h) as [mini' h'|e h'] eqn:S.
  - apply bind_returned in S as ([] & h1 & Pa & Sc).
    apply paste_aligned_returned in Pa as (r & r' & _ & -> & _).
    apply scale_returned in Sc as (r1 & r2 & _ & _ & -> & _).
    apply IH. apply prefix_app_r. now apply prefix_insert_beyond.
  - assert (P' : h0 `prefix_of` h').
    { apply bind_raised in S as [Pa|([] & h1 & Pa & Sc)].
      - now apply paste_aligned_raised in Pa as (-> & _).
      - apply paste_aligned_returned in Pa as (r & r' & _ & -> & _).
        apply scale_raised in Sc as (-> & _).
        now apply prefix_insert_beyond. }
    now destruct (is_ValueError e).
Qed.

Lemma prepare_nested_base_prefix (fuel : nat) (g : Gifception.t) (h : heap) :
  h `prefix_of` final_heap (Gifception.prepare_nested_base fuel g h).
Proof.
  unfold Gifception.prepare_nested_base.
  unfold mbind at 1, py_bind at 1, bind at 1.
  destruct (AnchoredImage.__deepcopy__ (Gifception.base_image g) h)
    as [nb h1|e h1] eqn:D1; [|now apply deepcopy_raised in D1].
  apply deepcopy_returned in D1 as (r1 & -> & I1).
  unfold mbind at 1, py_bind at 1, bind at 1.
  destruct (AnchoredImage.scale nb (preup (Gifception.params g)) None (h ++ [r1]))
    as [nb' h2|e h2] eqn:S1;
    [|apply scale_raised in S1 as (-> & _); now apply prefix_app_r].
  apply scale_returned in S1 as (r0 & r2 & _ & -> & -> & _).
  unfold mbind at 1, py_bind at 1, bind at 1.
  destruct (AnchoredImage.__deepcopy__ (Gifception.base_image g) ((h ++ [r1]) ++ [r2]))
    as [mini h3|e h3] eqn:D2.
  2:{ apply deepcopy_raised in D2. simpl.
      etrans; [|exact D2]. rewrite <- app_assoc. now apply prefix_app_r. }
  apply deepcopy_returned in D2 as (r3 & -> & I3).
  unfold mbind at 1, py_bind at 1, bind at 1.
  destruct (py_div 1 (inner_scale (Gifception.params g)) (((h ++ [r1]) ++ [r2]) ++ [r3]))
    as [s h4|e h4] eqn:Dv.
  2:{ apply py_div_raised in Dv as (-> & _). simpl.
      rewrite <- !app_assoc. now apply prefix_app_r. }
  apply py_div_returned in Dv as (-> & _ & _).
  unfold mbind at 1, py_bind at 1, bind at 1.
  destruct (AnchoredImage.scale mini _ None _) as [mini' h5|e h5] eqn:S2.
  2:{ apply scale_raised in S2 as (-> & _). simpl.
      rewrite <- !app_assoc. now apply prefix_app_r. }
  apply scale_returned in S2 as (r4 & r5 & _ & -> & -> & _).
  unfold mbind at 1, py_bind at 1, bind at 1.
  set (nb' := AnchoredImage.set_img nb (length (h ++ [r1]))).
  pose proof (paste_loop_prefix nb' s h ltac:(simpl; rewrite length_app; lia)
                fuel (AnchoredImage.set_img mini
                        (length (((h ++ [r1]) ++ [r2]) ++ [r3]))) s
                ((((h ++ [r1]) ++ [r2]) ++ [r3]) ++ [r5])
                ltac:(rewrite <- !app_assoc; now apply prefix_app_r)) as P.
  destruct (Gifception.paste_loop _ _ _ _ _ _) as [x h6|e h6]; exact P.
Qed.

Lemma start_making_frames_prefix (fuel : nat) (g : Gifception.t) (h : heap) :
  h `prefix_of` final_heap (Gifception.start_making_frames fuel g h).
Proof.
  unfold Gifception.start_making_frames.
  destruct (negb _); [reflexivity|].
  unfold mbind, py_bind, bind.
  pose proof (prepare_nested_base_prefix fuel g h) as P.
  destruct (Gifception.nested_base g) as [nb|].
  - unfold ret. destruct (negb _); reflexivity.
  - destruct (Gifception.prepare_nested_base fuel g h) as [[nb|] h1|e h1];
      simpl in P; try exact P.
    unfold ret. destruct (negb _); exact P.
Qed.

(** X14.  Making frames writes no image that the caller has: whatever
    [prepare_nested_base], [start_making_frames] and [make_frames] come to
    (a result, an exception, or no end), every image that existed before
    the call, the base image among them, is in the store afterwards as it
    was; the calls only add images. *)
Theorem caller_images_untouched (fuel : nat) (sched : list nat)
    (g : Gifception.t) (h : heap) :
  h `prefix_of` final_heap (Gifception.prepare_nested_base fuel g h)
  /\ h `prefix_of` final_heap (Gifception.start_making_frames fuel g h)
  /\ h `prefix_of` final_heap (Gifception.make_frames fuel sched g h)
  /\ forall l x,
       h !! l = Some x ->
       final_heap (Gifception.make_frames fuel sched g h) !! l = Some x.
Proof.
  assert (M : h `prefix_of` final_heap (Gifception.make_frames fuel sched g h)).
  { unfold Gifception.make_frames.
    pose proof (start_making_frames_prefix fuel g h) as P.
    destruct (Gifception.start_making_frames fuel g h) as [[[td g1]|] h1|e h1];
      try exact P.
    destruct (Gifception.wait_for_frames sched g1 td); exact P. }
  split; [apply prepare_nested_base_prefix|].
  split; [apply start_making_frames_prefix|].
  split; [exact M|].
  intros l x L. destruct M as [k ->]. now apply lookup_app_l_Some.
Qed.

(** ** The settings that making frames does not read *)

Lemma turn_same (x' x : Gifception.t) (i : nat) (td : Gifception.tempdir) :
  same_state x' x ->
  match Gifception.turn i x' td, Gifception.turn i x td with
  | Some (y', td1'), Some (y, td1) => same_state y' y /\ td1' = td1
  | None, None => True
  | _, _ => False
  end.
Proof.
  intros [Sp Sn Sb Sw Sqi Sqo]. unfold Gifception.turn.
  rewrite Sw, Sqi, Sqo.
  destruct (Gifception.frame_workers x !! i) as [fw|]; [|exact I].
  destruct (Gifception.qin x) as [[qi|]|]; try exact I.
  destruct (Gifception.qout x) as [[qo|]|]; try exact I.
  destruct (FrameWorker.run_step fw _) as [[fw' s]|]; [|exact I].
  split; [|reflexivity]. split; simpl; congruence.
Qed.

Lemma run_same (sched : list nat) :
  forall (x' x : Gifception.t) (td : Gifception.tempdir),
    same_state x' x ->
    same_state (Gifception.run sched x' td).1 (Gifception.run sched x td).1
    /\ (Gifception.run sched x' td).2 = (Gifception.run sched x td).2.
Proof.
  induction sched as [|i sched IH]; intros x' x td S; [now split|].
  simpl. pose proof (turn_same x' x i td S) as T.
  destruct (Gifception.turn i x' td) as [[y' td1']|],
           (Gifception.turn i x td) as [[y td1]|]; try contradiction.
  - destruct T as [S1 ->]. now apply IH.
  - now apply IH.
Qed.

Lemma wait_same (sched : list nat) (x' x : Gifception.t)
    (td : Gifception.tempdir) :
  same_state x' x ->
  match Gifception.wait_for_frames sched x' td,
        Gifception.wait_for_frames sched x td with
  | Gifception.Waiting, Gifception.Waiting => True
  | Gifception.Raises e', Gifception.Raises e => e' = e
  | Gifception.Returns _ td', Gifception.Returns _ td1 => td' = td1
  | _, _ => False
  end.
Proof.
  intros S. destruct (run_same sched x' x td S) as [[Sp Sn Sb Sw Sqi Sqo] Td].
  unfold Gifception.wait_for_frames. rewrite (same_qin _ _ S).
  destruct (Gifception.qin x) as [[q|]|]; try reflexivity.
  destruct (Gifception.run sched x' td) as [y' td'],
           (Gifception.run sched x td) as [y td1].
  cbn [fst snd] in *. subst td'. rewrite Sw, Sqi, Sqo, Sn, Sp.
  destruct (existsb _ _); [exact I|].
  destruct (Gifception.qin y) as [[qi|]|]; try reflexivity.
  destruct (Gifception.qout y) as [[qo|]|]; try reflexivity.
  destruct (negb _); [reflexivity|]. destruct (negb _); reflexivity.
Qed.

Lemma prepare_nested_base_same (fuel : nat) (g' g : Gifception.t) (h : heap) :
  AnchoredImage.img (Gifception.base_image g')
  = AnchoredImage.img (Gifception.base_image g) ->
  AnchoredImage.rel_anchor (Gifception.base_image g')
  = AnchoredImage.rel_anchor (Gifception.base_image g) ->
  Gifception.params g' = Gifception.params g ->
  Gifception.prepare_nested_base fuel g' h
  = Gifception.prepare_nested_base fuel g h.
Proof.
  intros Hi Ha Hp.
  unfold Gifception.prepare_nested_base, AnchoredImage.__deepcopy__,
    AnchoredImage.get_rel_anchor.
  now rewrite Hi, Ha, Hp.
Qed.

Lemma start_same (fuel : nat) (g' g : Gifception.t) (h : heap) :
  AnchoredImage.img (Gifception.base_image g')
  = AnchoredImage.img (Gifception.base_image g) ->
  AnchoredImage.rel_anchor (Gifception.base_image g')
  = AnchoredImage.rel_anchor (Gifception.base_image g) ->
  same_state g' g ->
  match Gifception.start_making_frames fuel g' h,
        Gifception.start_making_frames fuel g h with
  | Returned (Some (td', y')) h1', Returned (Some (td, y)) h1 =>
      td' = td /\ h1' = h1 /\ same_state y' y
  | Returned None h1', Returned None h1 => h1' = h1
  | Raised e' h1', Raised e h1 => e' = e /\ h1' = h1
  | _, _ => False
  end.
Proof.
  intros Hi Ha [Sp Sn Sb Sw Sqi Sqo].
  unfold Gifception.start_making_frames. rewrite Sw, Sb, Sp, Sn.
  destruct (negb _); [now split|].
  unfold mbind, py_bind, bind.
  destruct (Gifception.nested_base g) as [nb|].
  - unfold ret. destruct (negb _); [reflexivity|].
    split; [reflexivity|]. split; [reflexivity|]. split; simpl; congruence.
  - rewrite (prepare_nested_base_same fuel g' g h Hi Ha Sp).
    destruct (Gifception.prepare_nested_base fuel g h) as [[nb|] h1|e h1];
      [|reflexivity|now split].
    destruct (negb _); [reflexivity|].
    split; [reflexivity|]. split; [reflexivity|]. split; simpl; congruence.
Qed.

(** X15.  Two settings have no part in the frames: the [config] of the base
    image ([max_pixels] and [resampler]) and the [max_pixels] of the
    [config] of the [Gifception] object.  Two objects that differ in these
    only give, from the same store and under the same schedule, the same
    directory with the same files, the same store, or the same exception:
    every image is made on a deep copy, which takes the default [config]
    of [AnchoredImage]. *)
Theorem configs_ignored (fuel : nat) (sched : list nat) (g' g : Gifception.t)
    (h : heap) :
  AnchoredImage.img (Gifception.base_image g')
  = AnchoredImage.img (Gifception.base_image g) ->
  AnchoredImage.rel_anchor (Gifception.base_image g')
  = AnchoredImage.rel_anchor (Gifception.base_image g) ->
  same_state g' g ->
  directory (Gifception.make_frames fuel sched g' h)
  = directory (Gifception.make_frames fuel sched g h).
Proof.
  intros Hi Ha S. unfold Gifception.make_frames.
  pose proof (start_same fuel g' g h Hi Ha S) as St.
  destruct (Gifception.start_making_frames fuel g' h) as [[[td' y']|] h1'|e' h1'],
           (Gifception.start_making_frames fuel g h) as [[[td y]|] h1|e h1];
    try contradiction.
  - destruct St as (-> & -> & Sy).
    pose proof (wait_same sched y' y td Sy) as W.
    destruct (Gifception.wait_for_frames sched y' td),
             (Gifception.wait_for_frames sched y td);
      try contradiction; simpl; congruence.
  - now subst.
  - now destruct St as [-> ->].
Qed.

(** ** An animation of one frame *)

Lemma make_frame_single (fw : FrameWorker.t) (n : Z) (h : heap) :
  num_frames (FrameWorker.params fw) = 1 ->
  FrameWorker.make_frame fw n h = Raised ZeroDivisionError h.
Proof.
  intros N. unfold FrameWorker.make_frame. rewrite N.
  erewrite bind_fail; [reflexivity|]. now apply py_div_zero.
Qed.

Lemma single_turn (i : nat) (g g' : Gifception.t) (td td' : Gifception.tempdir) :
  Forall (fun fw => num_frames (FrameWorker.params fw) = 1)
         (Gifception.frame_workers g) ->
  Gifception.turn i g td = Some (g', td') ->
  Forall (fun fw => num_frames (FrameWorker.params fw) = 1)
         (Gifception.frame_workers g')
  /\ Gifception.contents td' = Gifception.contents td.
Proof.
  intros F T.
  apply turn_cases in T
    as (fw & hw & x & rest & qo & Ei & _ & _ & _ & _ & _ & _ & _ & Cs).
  pose proof (Forall_lookup_1 _ _ _ _ F Ei) as Fw.
  destruct Cs as [(_ & -> & _ & Ct)|[(n & r & h' & _ & M & _)
                                     |(n & e & h' & _ & _ & -> & _ & Ct)]].
  - split; [|exact Ct]. apply Forall_insert; assumption.
  - rewrite (make_frame_single fw n hw Fw) in M. discriminate.
  - split; [|exact Ct]. apply Forall_insert; assumption.
Qed.

Lemma single_run (sched : list nat) :
  forall (g : Gifception.t) (td : Gifception.tempdir),
    Forall (fun fw => num_frames (FrameWorker.params fw) = 1)
           (Gifception.frame_workers g) ->
    Gifception.contents (Gifception.run sched g td).2 = Gifception.contents td.
Proof.
  induction sched as [|i sched IH]; intros g td F; [reflexivity|].
  simpl. destruct (Gifception.turn i g td) as [[g' td']|] eqn:T; [|now apply IH].
  destruct (single_turn _ _ _ _ _ F T) as [F' Ct]. rewrite <- Ct. now apply IH.
Qed.

(** X16.  An animation of one frame cannot be made: with [num_frames] equal
    to 1, [make_frame] raises [ZeroDivisionError] for every frame number,
    before it touches an image, and [make_frames] never returns a
    directory, whatever the image, the other parameters, the number of
    workers and their order. *)
Theorem single_frame_never_made (fuel : nat) (sched : list nat)
    (g : Gifception.t) (h : heap) :
  num_frames (Gifception.params g) = 1 ->
  0 <= Gifception.num_processes (Gifception.config g) ->
  (forall fw n hw,
     FrameWorker.params fw = Gifception.params g ->
     FrameWorker.make_frame fw n hw = Raised ZeroDivisionError hw)
  /\ forall td' g' h',
       Gifception.make_frames fuel sched g h <> Returned (Some (td', g')) h'.
Proof.
  intros N Nt. split.
  { intros fw n hw P. apply make_frame_single. now rewrite P. }
  intros td' g' h' M. unfold Gifception.make_frames in M.
  destruct (Gifception.start_making_frames fuel g h)
    as [[[td1 g1]|] h1|e h1] eqn:S; try discriminate.
  destruct (Gifception.wait_for_frames sched g1 td1) as [|e|g3 td3] eqn:W;
    try discriminate.
  injection M as <- <- <-.
  apply wait_returned in W as (-> & En & Ws & _ & qo & Qi & Qo & Lq).
  destruct (tally_run _ _ _ sched _ _ _ (tally_start _ _ _ _ _ _ S)) as (k & T).
  rewrite (tally_params _ _ _ _ _ _ T), (tally_config _ _ _ _ _ _ T) in Lq.
  assert (Nf : 0 <= num_frames (Gifception.params g)) by (rewrite N; lia).
  rewrite <- (length_start_queue _ _ Nf Nt) in Lq. apply Nat2Z.inj in Lq.
  destruct (tally_at_return _ _ _ _ _ _ _ T Qi Qo Lq) as [-> D0].
  pose proof (tally_files _ _ _ _ _ _ T D0) as Dm.
  rewrite firstn_all, omap_frames in Dm.
  pose proof (start_returned _ _ _ _ _ _ S) as (nb & _ & Td & _ & _ & _ & _ & Fw).
  assert (F : Forall (fun fw => num_frames (FrameWorker.params fw) = 1)
                (Gifception.frame_workers g1)).
  { rewrite Fw. apply Forall_fmap, Forall_forall. intros pn _. exact N. }
  rewrite (single_run sched g1 td1 F), Td, N in Dm. simpl in Dm.
  rewrite dom_empty_L in Dm.
  assert (frame_name 1 ∈ (∅ : gset string)) as X.
  { rewrite Dm. change (seqZ 1 1) with [1]. set_solver. }
  set_solver.
Qed.

(** ** Animators: names and formats *)

Lemma lower_char_idem (c : ascii) : lower_char (lower_char c) = lower_char c.
Proof. destruct c as [[] [] [] [] [] [] [] []]; vm_compute; reflexivity. Qed.

Lemma lower_idem (s : string) : lower (lower s) = lower s.
Proof.
  induction s as [|c s IH]; [reflexivity|].
  cbn [lower]. now rewrite lower_char_idem, IH.
Qed.

Lemma lower_app (s t : string) : lower (s +:+ t) = lower s +:+ lower t.
Proof.
  induction s as [|c s IH]; [reflexivity|].
  rewrite append_cons. cbn [lower]. now rewrite append_cons, IH.
Qed.

Lemma endswith_cons (c : ascii) (s suffix : string) :
  endswith (String c s) suffix
  = String.eqb (String c s) suffix || endswith s suffix.
Proof. reflexivity. Qed.

Lemma endswith_refl (s : string) : endswith s s = true.
Proof.
  destruct s as [|c s]; [reflexivity|].
  rewrite endswith_cons, String.eqb_refl. reflexivity.
Qed.

Lemma endswith_app (s t : string) : endswith (s +:+ t) t = true.
Proof.
  induction s as [|c s IH]; [apply endswith_refl|].
  rewrite append_cons, endswith_cons, IH. apply orb_true_r.
Qed.

Lemma existsb_eqb_In (x : string) (l : list string) :
  existsb (String.eqb x) l = true <-> In x l.
Proof.
  rewrite existsb_exists. split.
  - intros (y & Hy & E). apply String.eqb_eq in E. now subst.
  - intros Hx. exists x. split; [exact Hx|apply String.eqb_refl].
Qed.

Lemma lower_extension (s f : string) :
  lower (s +:+ "." +:+ lower f) = lower s +:+ "." +:+ lower f.
Proof.
  rewrite lower_app. f_equal.
  change ("." +:+ lower f) with (String "."%char (lower f)).
  cbn [lower]. now rewrite lower_idem.
Qed.

(** X17.  What [animate] hands to the backend.  Whenever [animate] gets as
    far as [_animate(output_file_name, fmt)], the format is one of
    [available_formats()], the file name is the one given or that name with
    ["." + fmt] appended, and in lower case it ends with ["." + fmt]; with
    [overwrite = False] the name given did not exist.  A format given by
    the caller arrives in lower case; a format left out is found as an
    ending of the name in lower case. *)
Theorem animate_contract (self : GCAnimator.t) (exists_ : string -> bool)
    (output_file_name : string) (fmt : option string) (overwrite : bool)
    (name' fmt' : string) :
  GCAnimator.animate self exists_ output_file_name fmt overwrite
  = inr (name', fmt') ->
  In fmt' (GCAnimator.available_formats (GCAnimator.cls self))
  /\ (name' = output_file_name \/ name' = output_file_name +:+ "." +:+ fmt')
  /\ endswith (lower name') ("." +:+ fmt') = true
  /\ (overwrite = false -> exists_ output_file_name = false)
  /\ (forall f, fmt = Some f -> fmt' = lower f)
  /\ (fmt = None ->
      exists f, In f (GCAnimator.available_formats (GCAnimator.cls self))
                /\ endswith (lower output_file_name) f = true
                /\ fmt' = lower f).
Proof.
  unfold GCAnimator.animate.
  set (fo := match fmt with
             | Some f => Some f
             | None => List.find _ _
             end).
  destruct fo as [f|] eqn:F; [|discriminate].
  destruct (exists_ output_file_name && negb overwrite) eqn:Ex; [discriminate|].
  destruct (negb (existsb _ _)) eqn:Su; [discriminate|].
  apply negb_false_iff, existsb_eqb_In in Su.
  intros [= N <-]. split; [exact Su|].
  destruct (endswith (lower output_file_name) ("." +:+ lower f)) eqn:En;
    cbn [negb] in N; subst name'.
  all: split; [|split; [|split; [|split]]].
  1, 6: auto.
  1: exact En.
  4: rewrite lower_extension; apply endswith_app.
  all: clear En.
  1, 4: intros ->; now rewrite andb_true_r in Ex.
  1, 3: intros f1 ->; unfold fo in F; now injection F as ->.
  all: intros ->; unfold fo in F; apply find_some in F as [Hi He];
    exists f; auto.
Qed.

(** X18.  [overwrite = False] guards the name as given, not the name that
    is written: for a name that does not exist and does not end with the
    extension of a supported format, [animate] appends the extension and
    goes on to the backend, for each value of [overwrite] and whether or
    not a file of the longer name exists ([exists_] is any). *)
Theorem overwrite_check_before_extension (self : GCAnimator.t)
    (exists_ : string -> bool) (output_file_name f : string) (overwrite : bool) :
  In (lower f) (GCAnimator.available_formats (GCAnimator.cls self)) ->
  endswith (lower output_file_name) ("." +:+ lower f) = false ->
  exists_ output_file_name = false ->
  GCAnimator.animate self exists_ output_file_name (Some f) overwrite
  = inr (output_file_name +:+ "." +:+ lower f, lower f).
Proof.
  intros Hf He Hx. unfold GCAnimator.animate.
  rewrite Hx. cbn [andb].
  rewrite (proj2 (existsb_eqb_In _ _) Hf). cbn [negb].
  now rewrite He.
Qed.

(** ** Animators: the frames of a run *)

Lemma existsb_seqZ (n nf : Z) :
  existsb (Z.eqb n) (seqZ 1 nf) = true <-> 1 <= n <= nf.
Proof.
  rewrite existsb_exists. split.
  - intros (y & Hy & E). apply Z.eqb_eq in E. subst y.
    apply list_elem_of_In, elem_of_seqZ in Hy. lia.
  - intros Hn. exists n. split; [|apply Z.eqb_refl].
    apply list_elem_of_In, elem_of_seqZ. lia.
Qed.

Lemma path_join_frame (d : string) (n : Z) :
  path_join d (frame_name n) = path_join d "" +:+ frame_name n.
Proof.
  unfold path_join.
  change (String.prefix "/" (frame_name n)) with false.
  change (String.prefix "/" "") with false.
  destruct (String.eqb d "" || endswith d "/").
  - now rewrite append_assoc.
  - now rewrite !append_assoc.
Qed.

Lemma strip_prefix_app (d f : string) : strip_prefix d (d +:+ f) = Some f.
Proof.
  induction d as [|c d IH]; [now destruct f|].
  rewrite append_cons. cbn [strip_prefix]. now rewrite Ascii.eqb_refl.
Qed.

Lemma open_frame (td : Gifception.tempdir) (n : Z) (r : raster) :
  Gifception.contents td !! frame_name n = Some r ->
  PillowGIF.open td (path_join (Gifception.name td) (frame_name n)) = inr r.
Proof.
  intros L. unfold PillowGIF.open.
  now rewrite path_join_frame, strip_prefix_app, L.
Qed.

(** The files of a directory that [make_frames] returned. *)
Lemma returned_dom (fuel : nat) (sched : list nat) (g g' : Gifception.t)
    (h h' : heap) (td' : Gifception.tempdir) :
  0 <= num_frames (Gifception.params g) ->
  0 <= Gifception.num_processes (Gifception.config g) ->
  Gifception.make_frames fuel sched g h = Returned (Some (td', g')) h' ->
  dom (Gifception.contents td')
  = list_to_set (frame_name <$> seqZ 1 (num_frames (Gifception.params g))).
Proof.
  intros Nf Nt M. unfold Gifception.make_frames in M.
  destruct (Gifception.start_making_frames fuel g h)
    as [[[td1 g1]|] h1|e h1] eqn:S; try discriminate.
  destruct (Gifception.wait_for_frames sched g1 td1) as [|e|g3 td3] eqn:W;
    try discriminate.
  injection M as <- <- <-.
  apply wait_returned in W as (-> & En & Ws & _ & qo & Qi & Qo & Lq).
  destruct (tally_run _ _ _ sched _ _ _ (tally_start _ _ _ _ _ _ S)) as (k & T).
  rewrite (tally_params _ _ _ _ _ _ T), (tally_config _ _ _ _ _ _ T) in Lq.
  rewrite <- (length_start_queue _ _ Nf Nt) in Lq. apply Nat2Z.inj in Lq.
  destruct (tally_at_return _ _ _ _ _ _ _ T Qi Qo Lq) as [-> D0].
  pose proof (tally_files _ _ _ _ _ _ T D0) as Dm.
  now rewrite firstn_all, omap_frames in Dm.
Qed.

Lemma returned_frame (fuel : nat) (sched : list nat) (g g' : Gifception.t)
    (h h' : heap) (td' : Gifception.tempdir) (n : Z) :
  0 <= num_frames (Gifception.params g) ->
  0 <= Gifception.num_processes (Gifception.config g) ->
  Gifception.make_frames fuel sched g h = Returned (Some (td', g')) h' ->
  1 <= n <= num_frames (Gifception.params g) ->
  exists r, Gifception.contents td' !! frame_name n = Some r.
Proof.
  intros Nf Nt M Hn.
  pose proof (returned_dom _ _ _ _ _ _ _ Nf Nt M) as D.
  assert (X : frame_name n ∈ dom (Gifception.contents td')).
  { rewrite D. apply elem_of_list_to_set, list_elem_of_fmap.
    exists n. split; [reflexivity|]. apply elem_of_seqZ. lia. }
  apply elem_of_dom in X as [r X]. now exists r.
Qed.

Lemma frame_path_in (self : GCAnimator.t) (n : Z) :
  1 <= n <= num_frames (GCAnimator.params self) ->
  GCAnimator.frame_path self n
  = inr (path_join (Gifception.name (GCAnimator.frame_dir self)) (frame_name n)).
Proof.
  intros Hn. unfold GCAnimator.frame_path, GCAnimator.frame_range.
  now rewrite (proj2 (existsb_seqZ _ _) Hn).
Qed.

(** X19.  An animator finds the frames of a run.  On the directory that
    [make_frames] returned and with the [params] of the run, the
    constructor of every animator class returns (also of one that is not
    available), [frame_range()] is 1 to [num_frames], [frame_path(n)] for
    every [n] of the range is the path of a file that is in the directory,
    and for every other [n] it raises [ValueError]. *)
Theorem frame_path_finds_frames (fuel : nat) (sched : list nat)
    (g g' : Gifception.t) (h h' : heap) (td : Gifception.tempdir)
    (c : GCAnimator.class) :
  0 <= num_frames (Gifception.params g) ->
  0 <= Gifception.num_processes (Gifception.config g) ->
  Gifception.make_frames fuel sched g h = Returned (Some (td, g')) h' ->
  exists self,
    GCAnimator.__init__ c td (Gifception.params g) = inr self
    /\ GCAnimator.frame_range self = seqZ 1 (num_frames (Gifception.params g))
    /\ (forall n,
          1 <= n <= num_frames (Gifception.params g) ->
          exists r,
            GCAnimator.frame_path self n
            = inr (path_join (Gifception.name td) (frame_name n))
            /\ Gifception.contents td !! frame_name n = Some r
            /\ PillowGIF.open td (path_join (Gifception.name td) (frame_name n))
               = inr r)
    /\ (forall n,
          ~ (1 <= n <= num_frames (Gifception.params g)) ->
          GCAnimator.frame_path self n
          = inl (GCAnimator.ValueError (GCAnimator.FrameOutOfBounds n))).
Proof.
  intros Nf Nt M. eexists. split; [reflexivity|]. split; [reflexivity|]. split.
  - intros n Hn.
    destruct (returned_frame _ _ _ _ _ _ _ n Nf Nt M Hn) as [r L].
    exists r. split; [now apply frame_path_in|].
    split; [exact L|now apply open_frame].
  - intros n Hn. unfold GCAnimator.frame_path, GCAnimator.frame_range.
    cbn [GCAnimator.params].
    destruct (existsb (Z.eqb n) (seqZ 1 (num_frames (Gifception.params g))))
      eqn:X; [|reflexivity].
    apply existsb_seqZ in X. contradiction.
Qed.



(** ** The order of the frame files *)

Lemma all_digits_app (s t : string) :
  all_digits (s +:+ t) = all_digits s && all_digits t.
Proof.
  induction s as [|c s IH]; [reflexivity|].
  rewrite append_cons. cbn [all_digits]. now rewrite IH, andb_assoc.
Qed.

Lemma all_digits_zeros (k : nat) : all_digits (zeros k) = true.
Proof. induction k as [|k IH]; [reflexivity|]. cbn [zeros all_digits]. now rewrite IH. Qed.

Lemma digits_aux_digits (fuel : nat) :
  forall (n : Z) (acc : string),
    0 <= n -> all_digits acc = true ->
    all_digits (digits_aux fuel n acc) = true.
Proof.
  induction fuel as [|fuel IH]; intros n acc Hn Ha; [exact Ha|].
  cbn [digits_aux].
  assert (Hm : 0 <= n mod 10 < 10) by (apply Z.mod_pos_bound; lia).
  destruct (digit_char_spec _ Hm) as [Dg _].
  assert (A' : all_digits (String (digit_char (n mod 10)) acc) = true).
  { cbn [all_digits]. now rewrite Dg, Ha. }
  destruct (n / 10 =? 0); [exact A'|].
  apply IH; [apply Z.div_pos; lia|exact A'].
Qed.

Lemma format_05d_digits (n : Z) : 0 <= n -> all_digits (format_05d n) = true.
Proof.
  intros Hn. unfold format_05d.
  destruct (Z.ltb_spec n 0) as [?|_]; [lia|].
  unfold zfill, digits. rewrite all_digits_app, all_digits_zeros.
  now apply digits_aux_digits.
Qed.

Lemma parse_format_05d (n : Z) : 0 <= n -> parse_digits (format_05d n) 0 = n.
Proof.
  intros Hn. unfold format_05d.
  destruct (Z.ltb_spec n 0) as [?|_]; [lia|].
  unfold zfill, digits.
  destruct (digits_aux_spec _ n "" (conj Hn (digits_fuel n Hn))) as (D & -> & PD).
  rewrite parse_zeros, PD. cbn [parse_digits]. lia.
Qed.

Lemma parse_digits_acc (s : string) :
  all_digits s = true ->
  (forall a, parse_digits s a
             = a * 10 ^ Z.of_nat (String.length s) + parse_digits s 0)
  /\ 0 <= parse_digits s 0 < 10 ^ Z.of_nat (String.length s).
Proof.
  induction s as [|c s IH]; intros A.
  - split; [intros a|]; cbn [parse_digits String.length];
      change (Z.of_nat 0) with 0; rewrite Z.pow_0_r; lia.
  - cbn [all_digits] in A. apply andb_true_iff in A as [Dc As].
    destruct (IH As) as [Ia Ib].
    assert (Hv : 0 <= digit_val c <= 9).
    { unfold is_digit in Dc. apply andb_true_iff in Dc as [D1 D2].
      apply Nat.leb_le in D1, D2. unfold digit_val. lia. }
    assert (Hp : 10 ^ Z.of_nat (String.length (String c s))
                 = 10 * 10 ^ Z.of_nat (String.length s)).
    { cbn [String.length]. rewrite Nat2Z.inj_succ, Z.pow_succ_r; lia. }
    rewrite Hp. split.
    + intros a. rewrite !(parse_digits_cons _ _ _ Dc).
      rewrite (Ia (10 * a + digit_val c)), (Ia (10 * 0 + digit_val c)). lia.
    + rewrite (parse_digits_cons _ _ _ Dc), (Ia (10 * 0 + digit_val c)). nia.
Qed.

Lemma ascii_compare_digit_val (c d : ascii) :
  Ascii.compare c d = (digit_val c ?= digit_val d).
Proof.
  unfold Ascii.compare, digit_val, nat_of_ascii.
  rewrite !N_nat_Z. symmetry.
  destruct (N.compare_spec (N_of_ascii c) (N_of_ascii d)) as [E|L|L].
  - rewrite E. apply Z.compare_refl.
  - apply Z.compare_lt_iff. lia.
  - apply Z.compare_gt_iff. lia.
Qed.

Lemma compare_digits (s : string) :
  forall t : string,
    String.length s = String.length t ->
    all_digits s = true -> all_digits t = true ->
    String.compare s t = (parse_digits s 0 ?= parse_digits t 0).
Proof.
  induction s as [|c s IH]; intros [|d t] L As At; try discriminate.
  - reflexivity.
  - injection L as L.
    destruct (parse_digits_acc _ As) as [Sa _].
    destruct (parse_digits_acc _ At) as [Ta _].
    cbn [all_digits] in As, At.
    apply andb_true_iff in As as [Dc As]. apply andb_true_iff in At as [Dd At].
    destruct (parse_digits_acc _ As) as [_ Sb].
    destruct (parse_digits_acc _ At) as [_ Tb].
    rewrite (Sa 0), (Ta 0) in *. clear Sa Ta.
    rewrite !(parse_digits_cons _ _ _ Dc), !(parse_digits_cons _ _ _ Dd).
    destruct (parse_digits_acc _ As) as [Sa _].
    destruct (parse_digits_acc _ At) as [Ta _].
    rewrite (Sa (10 * 0 + digit_val c)), (Ta (10 * 0 + digit_val d)).
    cbn [String.compare]. rewrite ascii_compare_digit_val, (IH t L As At).
    rewrite <- L in *.
    set (P := 10 ^ Z.of_nat (String.length s)) in *.
    set (ps := parse_digits s 0) in *. set (pt := parse_digits t 0) in *.
    symmetry.
    destruct (Z.compare_spec (digit_val c) (digit_val d)) as [E|Lt|Gt].
    + rewrite E.
      destruct (Z.compare_spec ps pt) as [E'|L'|G'].
      * apply Z.compare_eq_iff. lia.
      * apply Z.compare_lt_iff. lia.
      * apply Z.compare_gt_iff. lia.
    + apply Z.compare_lt_iff. nia.
    + apply Z.compare_gt_iff. nia.
Qed.

Lemma compare_cons_same (c : ascii) (s t : string) :
  String.compare (String c s) (String c t) = String.compare s t.
Proof.
  cbn [String.compare]. unfold Ascii.compare. now rewrite N.compare_refl.
Qed.

Lemma compare_app (s : string) :
  forall (t x y : string),
    String.length s = String.length t ->
    String.compare s t <> Eq ->
    String.compare (s +:+ x) (t +:+ y) = String.compare s t.
Proof.
  induction s as [|c s IH]; intros [|d t] x y L N; try discriminate.
  - now contradiction N.
  - injection L as L. rewrite !append_cons. cbn [String.compare] in *.
    destruct (Ascii.compare c d); try reflexivity. now apply IH.
Qed.

(** X21.  Below frame 100000 the names of the frame files sort as the
    frames do: for [0 <= i < j < 100000] the name of frame [i] is before
    the name of frame [j] in the order of the characters, the order in
    which a pattern such as ["*.png"] lists them.  From frame 100000 on
    that ends: its name sorts before the name of frame 99999. *)
Theorem frame_names_sorted (i j : Z) :
  0 <= i -> i < j -> j < 100000 ->
  String.compare (frame_name i) (frame_name j) = Lt
  /\ String.compare (frame_name 100000) (frame_name 99999) = Lt.
Proof.
  intros Hi Hij Hj. split; [|vm_compute; reflexivity].
  unfold frame_name.
  change ("frame-" +:+ format_05d i +:+ ".png")
    with (String "f" (String "r" (String "a" (String "m" (String "e"
            (String "-" (format_05d i +:+ ".png"))))))).
  change ("frame-" +:+ format_05d j +:+ ".png")
    with (String "f" (String "r" (String "a" (String "m" (String "e"
            (String "-" (format_05d j +:+ ".png"))))))).
  rewrite !compare_cons_same.
  assert (C : String.compare (format_05d i) (format_05d j) = Lt).
  { rewrite compare_digits.
    - rewrite !parse_format_05d by lia. now apply Z.compare_lt_iff.
    - rewrite !format_05d_length by lia. reflexivity.
    - apply format_05d_digits. lia.
    - apply format_05d_digits. lia. }
  rewrite compare_app; [exact C| |now rewrite C].
  rewrite !format_05d_length by lia. reflexivity.
Qed.

(** ** The nested base and the size of the frames *)





End MoreProperties.

(** * Concrete runs *)

Section RunProperties.
#[local] Existing Instance HistoryPillow.
#[local] Existing Instance ApproxPow.

Example frame_name_1 : frame_name 1 = "frame-00001.png".
Proof. reflexivity. Qed.

Example frame_name_120 : frame_name 120 = "frame-00120.png".
Proof. reflexivity. Qed.

Example frame_names_5 :
  frame_names 5 = ["frame-00001.png"; "frame-00002.png"; "frame-00003.png";
                   "frame-00004.png"; "frame-00005.png"].
Proof. reflexivity. Qed.

(** C6.  For a point right of the image, [set_anchor_absolute] does not
    raise: it returns the [ValueError] object.  For a point left of the
    image it returns [None] and stores an anchor outside [0, 1]. *)
Theorem set_anchor_absolute_no_raise :
  AnchoredImage.set_anchor_absolute base (900 # 1, 100 # 1)%Q store0
  = Returned
      (Some (ValueError (AnchorOutOfBounds (900 # 1, 100 # 1)%Q 800 600)), base)
      store0
  /\ AnchoredImage.set_anchor_absolute base (-100 # 1, 100 # 1)%Q store0
     = Returned
         (None,
          AnchoredImage.set_rel_anchor base
            ((-100 # 1) / inject_Z 800, (100 # 1) / inject_Z 600)%Q)
         store0.
Proof. split; reflexivity. Qed.

(** Against C8 as stated: in the scenario, run with the workers taking
    turns, the first frame is 800 by 600 and not 400 by 300. *)
Lemma scenario_frame_size :
  file_size (Gifception.make_frames 6 round_robin scenario store0) "frame-00001.png"
  = Some (800, 600)
  /\ file_size (Gifception.make_frames 6 round_robin scenario store0)
       "frame-00001.png"
     <> Some (400, 300).
Proof. split; [vm_compute; reflexivity|vm_compute; discriminate]. Qed.



(** [anchor_invariant] on the photo scaled by a half. *)
Lemma anchor_invariant_witness :
  exists a' h',
    apply (Scale (1 # 2) None) base store0 = Returned a' h'
    /\ AnchoredImage.rel_anchor a' = Some (1 # 2, 1 # 2)%Q
    /\ AnchoredImage.anchor_absolute a' h'
       = Returned (inject_Z 400 * (1 # 2), inject_Z 300 * (1 # 2))%Q h'.
Proof.
  assert (S : apply (Scale (1 # 2) None) base store0
              = Returned (AnchoredImage.set_img base 1)
                  (store0 ++ [Raster 400 300
                                (Resampled BICUBIC (800, 600) (Decoded 0) (400, 300))]))
    by reflexivity.
  destruct (anchor_invariant _ _ _ _ _ S) as (A & w & hh & Sz & Abs).
  eexists _, _. split; [exact S|]. split; [exact A|].
  injection Sz as <- <-. exact (Abs _ _ eq_refl).
Defined.


(** [deepcopy_independent] on the image with a [config] of its own: the
    copy has the default one, and pasting onto the copy leaves the image
    as it was. *)
Lemma deepcopy_independent_witness :
  exists a' h',
    AnchoredImage.__deepcopy__ limited store0 = Returned a' h'
    /\ AnchoredImage.config a' = AnchoredImage._default_config
    /\ AnchoredImage.config limited <> AnchoredImage._default_config
    /\ AnchoredImage.rel_anchor a' = Some (1 # 4, 3 # 4)%Q
    /\ final_heap (apply (PasteAligned base) a' h') !! 0%nat = Some photo.
Proof.
  destruct (deepcopy_independent limited store0 photo (1 # 4, 3 # 4)%Q
              eq_refl eq_refl)
    as (a' & h' & D & _ & _ & _ & A & C & _ & _ & Fr & _).
  exists a', h'. split; [exact D|]. split; [exact C|].
  split; [discriminate|]. split; [exact A|]. exact (Fr (PasteAligned base)).
Defined.



(** [make_frames_sound] on the scenario. *)
Lemma make_frames_sound_witness :
  exists td g h1,
    Gifception.make_frames 6 round_robin scenario store0
    = Returned (Some (td, g)) h1
    /\ dom (Gifception.contents td) = list_to_set (frame_name <$> seqZ 1 5)
    /\ size (Gifception.contents td) = 5%nat
    /\ Gifception.frame_workers g = [].
Proof.
  assert (M : exists td g h1,
             Gifception.make_frames 6 round_robin scenario store0
             = Returned (Some (td, g)) h1).
  { eexists _, _, _. vm_compute. reflexivity. }
  destruct M as (td & g & h1 & M).
  destruct (make_frames_sound 6 round_robin scenario g store0 h1 td
              ltac:(vm_compute; discriminate) ltac:(vm_compute; discriminate) M)
    as (D & Sz & W & _).
  exists td, g, h1. repeat split; assumption.
Defined.

(** [dead_worker_detected] on the run whose frames all fail: each worker
    dies on its first frame. *)
Lemma dead_worker_detected_witness :
  exists msg h1,
    Gifception.make_frames 6 round_robin doomed store0
    = Raised (GifceptionException msg) h1.
Proof.
  assert (S : exists td g1 h1,
             Gifception.start_making_frames 6 doomed store0
             = Returned (Some (td, g1)) h1
             /\ ended (Gifception.run round_robin g1 td).1 = true
             /\ (1 <= num_died (Gifception.frame_workers
                                  (Gifception.run round_robin g1 td).1))%nat).
  { eexists _, _, _. split; [vm_compute; reflexivity|].
    split; vm_compute; [reflexivity|lia]. }
  destruct S as (td & g1 & h1 & S & En & D).
  destruct (dead_worker_detected 6 round_robin doomed g1 store0 h1 td
              ltac:(vm_compute; discriminate) ltac:(vm_compute; discriminate)
              S En D) as [msg M].
  exists msg, h1. exact M.
Defined.

(** [start_twice_raises] on the scenario, two frames into the run. *)
Lemma start_twice_raises_witness :
  exists td g1 h1,
    Gifception.start_making_frames 6 scenario store0
    = Returned (Some (td, g1)) h1
    /\ Gifception.start_making_frames 0
         (Gifception.run [0; 1]%nat g1 td).1 h1
       = Raised (GifceptionException "Frame generation still in progress!") h1.
Proof.
  assert (S : exists td g1 h1,
             Gifception.start_making_frames 6 scenario store0
             = Returned (Some (td, g1)) h1).
  { eexists _, _, _. vm_compute. reflexivity. }
  destruct S as (td & g1 & h1 & S).
  exists td, g1, h1. split; [exact S|].
  exact (start_twice_raises 6 0 [0; 1]%nat scenario g1 store0 h1 h1 td
           ltac:(vm_compute; discriminate) S).
Defined.

(** [restart_reuses_nested_base] on the scenario. *)
Lemma restart_reuses_nested_base_witness :
  exists td g h1 nb td2 g2,
    Gifception.make_frames 6 round_robin scenario store0
    = Returned (Some (td, g)) h1
    /\ Gifception.nested_base g = Some nb
    /\ Gifception.start_making_frames 0 g h1 = Returned (Some (td2, g2)) h1
    /\ Gifception.nested_base g2 = Some nb.
Proof.
  assert (M : exists td g h1,
             Gifception.make_frames 6 round_robin scenario store0
             = Returned (Some (td, g)) h1).
  { eexists _, _, _. vm_compute. reflexivity. }
  destruct M as (td & g & h1 & M).
  destruct (restart_reuses_nested_base 6 round_robin scenario g store0 h1 h1 td
              ltac:(vm_compute; discriminate) ltac:(vm_compute; discriminate) M)
    as (nb & td2 & g2 & Nb & S2 & Nb2 & _).
  exists td, g, h1, nb, td2, g2. repeat split; assumption.
Defined.


(** [is_making_frames_after_death] on the run whose frames all fail, after
    every worker has died. *)
Lemma is_making_frames_after_death_witness :
  exists td g1 h1,
    Gifception.start_making_frames 6 doomed store0
    = Returned (Some (td, g1)) h1
    /\ ended (Gifception.run round_robin g1 td).1 = true
    /\ Gifception.is_making_frames (Gifception.run round_robin g1 td).1
       = inr true.
Proof.
  assert (S : exists td g1 h1,
             Gifception.start_making_frames 6 doomed store0
             = Returned (Some (td, g1)) h1
             /\ ended (Gifception.run round_robin g1 td).1 = true
             /\ (1 <= num_died (Gifception.frame_workers
                                  (Gifception.run round_robin g1 td).1))%nat).
  { eexists _, _, _. split; [vm_compute; reflexivity|].
    split; vm_compute; [reflexivity|lia]. }
  destruct S as (td & g1 & h1 & S & En & D).
  exists td, g1, h1. split; [exact S|]. split; [exact En|].
  exact (is_making_frames_after_death 6 round_robin doomed g1 store0 h1 td
           ltac:(vm_compute; discriminate) ltac:(vm_compute; discriminate) S D).
Defined.


Lemma scenario_made :
  exists td g h1,
    Gifception.make_frames 6 round_robin scenario store0
    = Returned (Some (td, g)) h1.
Proof. eexists _, _, _. vm_compute. reflexivity. Qed.



(** [absolute_anchor_outside] with the anchor (900, 100) on 800 by 600. *)
Lemma absolute_anchor_outside_witness :
  exists a g,
    AnchoredImage.__init__ 0%nat (900 # 1, 100 # 1)%Q false None store0
    = Returned a store0
    /\ AnchoredImage.rel_anchor a = None
    /\ Gifception.__init__ (AnchoredImage.Anchored a) None None store0
       = Returned g store0
    /\ Gifception.start_making_frames 6 g store0
       = Raised (AttributeError "AnchoredImage" "rel_anchor") (store0 ++ [photo]).
Proof.
  assert (O : (inject_Z (width photo) < 900 # 1
               \/ inject_Z (height photo) < 100 # 1)%Q)
    by (left; vm_compute; reflexivity).
  destruct (absolute_anchor_outside 0%nat None None None 6 store0 photo
              (900 # 1) (100 # 1) eq_refl O)
    as (a & g & I & R & _ & _ & G & S).
  exists a, g. repeat split; assumption.
Defined.





(** [configs_ignored] on the scenario and the scenario with other
    settings. *)
Lemma configs_ignored_witness :
  directory (Gifception.make_frames 6 round_robin tuned store0)
  = directory (Gifception.make_frames 6 round_robin scenario store0).
Proof.
  exact (configs_ignored 6 round_robin tuned scenario store0 eq_refl eq_refl
           ltac:(split; reflexivity)).
Defined.

(** [single_frame_never_made] on the scenario with one frame. *)
Lemma single_frame_never_made_witness :
  ~ exists td g h1,
      Gifception.make_frames 6 round_robin single store0
      = Returned (Some (td, g)) h1.
Proof.
  intros (td & g & h1 & M).
  exact (proj2 (single_frame_never_made 6 round_robin single store0 eq_refl
                  ltac:(vm_compute; discriminate)) td g h1 M).
Defined.

(** [animate_contract] for a name in capitals and no format. *)
Lemma animate_contract_witness :
  GCAnimator.animate clip (fun _ => false) "clip.WEBM" None true
  = inr ("clip.WEBM"%string, "webm"%string)
  /\ In "webm"%string (GCAnimator.available_formats (GCAnimator.cls clip))
  /\ endswith (lower "clip.WEBM") ".webm" = true.
Proof.
  destruct (animate_contract clip (fun _ => false) "clip.WEBM" None true
              "clip.WEBM" "webm" eq_refl) as (I & _ & E & _).
  split; [reflexivity|]. split; [exact I|exact E].
Defined.

(** [overwrite_check_before_extension]: [out.gif] exists, [out] does not,
    and [overwrite] is false. *)
Lemma overwrite_check_before_extension_witness :
  String.eqb "out.gif" "out.gif" = true
  /\ GCAnimator.animate clip (String.eqb "out.gif") "out" (Some "GIF"%string)
       false
     = inr ("out.gif"%string, "gif"%string).
Proof.
  split; [reflexivity|].
  exact (overwrite_check_before_extension clip (String.eqb "out.gif") "out" "GIF"
           false (or_introl eq_refl) eq_refl eq_refl).
Defined.

(** [frame_path_finds_frames] on the scenario. *)
Lemma frame_path_finds_frames_witness :
  exists td g h1 self r,
    Gifception.make_frames 6 round_robin scenario store0
    = Returned (Some (td, g)) h1
    /\ GCAnimator.__init__ (PillowGIF.class (false, "no"%string)) td
         (Gifception.params scenario) = inr self
    /\ GCAnimator.frame_path self 3
       = inr (path_join (Gifception.name td) (frame_name 3))
    /\ Gifception.contents td !! frame_name 3 = Some r.
Proof.
  destruct scenario_made as (td & g & h1 & M).
  destruct (frame_path_finds_frames 6 round_robin scenario g store0 h1 td
              (PillowGIF.class (false, "no"%string))
              ltac:(vm_compute; discriminate) ltac:(vm_compute; discriminate) M)
    as (self & I & _ & In_ & _).
  destruct (In_ 3 ltac:(vm_compute; split; discriminate)) as (r & P & L & _).
  exists td, g, h1, self, r. repeat split; assumption.
Defined.


(** [frame_names_sorted] for the frames 9 and 10. *)
Lemma frame_names_sorted_witness :
  String.compare (frame_name 9) (frame_name 10) = Lt.
Proof.
  exact (proj1 (frame_names_sorted 9 10 ltac:(lia) ltac:(lia) ltac:(lia))).
Defined.



End RunProperties.
